(** * Verification of the transcription pipeline of [web/transcription_service.py]

    The development embeds the chunk planner ([get_audio_chunks]), the media
    prober ([get_audio_duration]), the chunk extractor ([extract_audio_chunk]),
    the transcription driver ([transcribe_audio]) and the retention sweep
    ([cleanup_old_files]) of [TranscriptionService] and proves the properties
    of the specification about them.

    Modelling conventions.
    - Seconds (durations, offsets, timestamps) are Python [float]s in the
      source.  They are modelled as exact rationals [Q]: the planner only adds,
      subtracts and compares them, so the model is the program with rounding
      left out.  The special values [nan] and [inf] have no counterpart.
    - A Python exception is a value of [exn]; a call that can raise returns a
      [result].  Stateful code is a computation [M St A] over an explicit
      state: the files on disk for the driver, the working directories for the
      sweep.
    - A [while] loop runs on fuel; [None] means that the fuel ran out.
    - The child processes (ffprobe, ffmpeg), the transcription API and the
      name that [mkstemp] picks are the environment: each run is given their
      answers, and the theorems hold for all of them.
    - The [print] calls of the driver are left out; those of the sweep are
      kept, the printed line being all that a caller sees of a failed
      deletion.
    - The standard error of ffmpeg is taken as text: [e.stderr.decode()] is
      assumed to succeed.  A directory whose removal fails stays listed with
      the modification time it had. *)

From Stdlib Require Import QArith Qminmax Qround Lqa Lia ZArith String Ascii List.
From stdpp Require Import base option list gmap strings pretty.

Local Open Scope Q_scope.

(** ** Numbers *)

(** Python's [a < b] and [a <= b] on numbers. *)
Definition Qltb (a b : Q) : bool := negb (Qle_bool b a).
Definition Qleb (a b : Q) : bool := Qle_bool a b.

(** ** Chunk planner *)

(** A chunk window is the pair [(start, chunk_duration)] of the source. *)
Definition window : Type := Q * Q.

Definition w_start (w : window) : Q := fst w.
Definition w_len (w : window) : Q := snd w.
Definition w_end (w : window) : Q := w_start w + w_len w.

(** The half-second trailing pad and the overlap of adjacent windows. *)
Definition pad : Q := 1 # 2.
Definition overlap : Q := 10.

(** The [while start < duration] loop of [get_audio_chunks]; [chunks] is the
    list built so far, to which each iteration appends. *)
Fixpoint chunk_loop (fuel : nat) (duration max_duration start : Q)
    (chunks : list window) : option (list window) :=
  match fuel with
  | O => None
  | S fuel' =>
      if Qltb start duration then
        let remaining := duration - start in
        let chunk_duration := Qmin max_duration remaining in
        let chunk_duration :=
          if Qleb remaining (max_duration + overlap)
          then remaining + pad else chunk_duration in
        let chunks := chunks ++ [(start, chunk_duration)] in
        if Qleb duration (start + chunk_duration) then Some chunks
        else chunk_loop fuel' duration max_duration
               (start + (max_duration - overlap)) chunks
      else Some chunks
  end.

(** [get_audio_chunks] once the duration has been probed.  The single-window
    test is against the literal [600], not against [max_duration]. *)
Definition plan_chunks (fuel : nat) (duration max_duration : Q)
    : option (list window) :=
  if Qleb duration 600 then Some [(0, duration + pad)]
  else chunk_loop fuel duration max_duration 0 [].

(** The default value of the [max_duration] parameter. *)
Definition default_max_duration : Q := 600.

(** Two window lists with equal numbers in the same places. *)
Definition windows_eq (ws1 ws2 : list window) : Prop :=
  Forall2 (fun a b => w_start a == w_start b /\ w_len a == w_len b) ws1 ws2.

(** Each window reaches the start of the next one: no gap. *)
Fixpoint contiguous (ws : list window) : Prop :=
  match ws with
  | w1 :: (w2 :: _) as tl => w_start w2 <= w_end w1 /\ contiguous tl
  | _ => True
  end.

(** Start times never decrease along the list. *)
Fixpoint starts_nondecreasing (ws : list window) : Prop :=
  match ws with
  | w1 :: (w2 :: _) as tl => w_start w1 <= w_start w2 /\ starts_nondecreasing tl
  | _ => True
  end.

(** The last window ends at or after [duration]. *)
Definition covers_end (duration : Q) (ws : list window) : Prop :=
  match last ws with
  | Some w => duration <= w_end w
  | None => False
  end.

(** ** Exceptions and the state-and-error monad *)

(** The exceptions that the modelled code raises or catches.  They are all
    subclasses of Python's [Exception]. *)
Inductive exn : Type :=
  | RuntimeError (msg : string)
  | FileNotFoundError (msg : string)
  | EnvironmentError (msg : string)
  | ValueError (msg : string)
  | CalledProcessError (returncode : Z) (cmd : list string) (stderr : string)
  | TimeoutExpired (cmd : list string) (timeout : Z)
  | APIError (msg : string)
  | OSError (msg : string).

(** Python's [repr] of a string without quotes or escapes in it, and of a list
    of such strings. *)
Definition str_repr (s : string) : string := "'" ++ s ++ "'".
Definition list_repr (l : list string) : string :=
  "[" ++ String.concat ", " (map str_repr l) ++ "]".

(** [str(e)], the text that an f-string inserts for [{e}]. *)
Definition exn_str (e : exn) : string :=
  match e with
  | RuntimeError msg | FileNotFoundError msg | EnvironmentError msg
  | ValueError msg | APIError msg | OSError msg => msg
  | CalledProcessError rc cmd _ =>
      "Command '" ++ list_repr cmd ++ "' returned non-zero exit status "
        ++ pretty rc ++ "."
  | TimeoutExpired cmd t =>
      "Command '" ++ list_repr cmd ++ "' timed out after "
        ++ pretty t ++ " seconds"
  end.

Inductive result (A : Type) : Type :=
  | Ok (a : A)
  | Err (e : exn).
Arguments Ok {A} a.
Arguments Err {A} e.

Definition is_Err {A} (r : result A) : Prop :=
  match r with Ok _ => False | Err _ => True end.

(** A computation over a state [St]: it ends in a state with a value or a
    raised exception, or it does not end ([None]). *)
Definition M (St A : Type) : Type := St -> option (St * result A).

Definition ret {St A} (a : A) : M St A := fun s => Some (s, Ok a).
Definition raise {St A} (e : exn) : M St A := fun s => Some (s, Err e).
Definition diverge {St A} : M St A := fun _ => None.

Definition bind {St A B} (m : M St A) (k : A -> M St B) : M St B :=
  fun s =>
    match m s with
    | None => None
    | Some (s', Ok a) => k a s'
    | Some (s', Err e) => Some (s', Err e)
    end.

(** [try: m  except Exception as e: h e]. *)
Definition try_except {St A} (m : M St A) (h : exn -> M St A) : M St A :=
  fun s =>
    match m s with
    | None => None
    | Some (s', Ok a) => Some (s', Ok a)
    | Some (s', Err e) => h e s'
    end.

(** [try: m  finally: f].  The outcome of [m] is kept unless [f] raises. *)
Definition try_finally {St A} (m : M St A) (f : M St unit) : M St A :=
  fun s =>
    match m s with
    | None => None
    | Some (s', r) =>
        match f s' with
        | None => None
        | Some (s'', Ok _) => Some (s'', r)
        | Some (s'', Err e) => Some (s'', Err e)
        end
    end.

Definition get {St} : M St St := fun s => Some (s, Ok s).
Definition modify {St} (f : St -> St) : M St unit := fun s => Some (f s, Ok tt).

Declare Scope monad_scope.
Delimit Scope monad_scope with monad.
Notation "'let!' x ':=' m 'in' k" := (bind m (fun x => k))
  (at level 10, x name, m at level 100, k at level 200, only parsing)
  : monad_scope.
Notation "m >>> k" := (bind m (fun _ => k))
  (at level 100, k at level 200, right associativity, only parsing)
  : monad_scope.

(** [for x in l: body i x], with [i] the running index of [enumerate]. *)
Fixpoint for_enumerate {St A} (body : nat -> A -> M St unit) (i : nat)
    (l : list A) : M St unit :=
  match l with
  | [] => ret tt
  | x :: l' => bind (body i x) (fun _ => for_enumerate body (S i) l')
  end.

Definition for_each {St A} (body : A -> M St unit) (l : list A) : M St unit :=
  for_enumerate (fun _ => body) 0 l.

(** ** External processes *)

(** How a child process started by [subprocess.run] ended. *)
Inductive proc_outcome : Type :=
  | Exited (returncode : Z) (stdout stderr : string)
  | TimedOut.

(** [subprocess.run(cmd, check=True, timeout=t)]: the standard output of a
    process that exited with status 0, an exception otherwise. *)
Definition subprocess_run (cmd : list string) (timeout : Z) (o : proc_outcome)
    : result string :=
  match o with
  | Exited rc out err =>
      if (rc =? 0)%Z then Ok out else Err (CalledProcessError rc cmd err)
  | TimedOut => Err (TimeoutExpired cmd timeout)
  end.

(** ** Media prober *)

(** Python's [float(s)] on text: [None] stands for the [ValueError] it raises
    on text that is not a number.  The builtin is an interface of the model;
    [decimal_float] below is an instance of it for plain decimal literals. *)
Class PyFloat : Type := py_float : string -> option Q.

(** [str.strip()] on ASCII text. *)
Definition is_space (a : ascii) : bool :=
  let n := nat_of_ascii a in
  ((9 <=? n)%nat && (n <=? 13)%nat) || ((28 <=? n)%nat && (n <=? 32)%nat).

Fixpoint lstrip (s : string) : string :=
  match s with
  | EmptyString => EmptyString
  | String a s' => if is_space a then lstrip s' else s
  end.

Fixpoint rstrip (s : string) : string :=
  match s with
  | EmptyString => EmptyString
  | String a s' =>
      match rstrip s' with
      | EmptyString => if is_space a then EmptyString else String a EmptyString
      | r => String a r
      end
  end.

Definition strip (s : string) : string := rstrip (lstrip s).

(** The leading decimal digits of [s]: their value on top of [acc], how many
    there are, and the rest of [s]. *)
Fixpoint read_digits (s : string) (acc : Z) (n : nat) : Z * nat * string :=
  match s with
  | EmptyString => (acc, n, s)
  | String a s' =>
      let d := nat_of_ascii a in
      if ((48 <=? d)%nat && (d <=? 57)%nat)%bool
      then read_digits s' (10 * acc + Z.of_nat (d - 48))%Z (S n)
      else (acc, n, s)
  end.

(** [float] on a literal [[+-]digits[.digits]] with at least one digit, the
    form in which ffprobe prints a duration. *)
Definition decimal_float : PyFloat := fun s =>
  let '(neg, body) :=
    match s with
    | String "-" s' => (true, s')
    | String "+" s' => (false, s')
    | _ => (false, s)
    end in
  let '(ip, ni, rest) := read_digits body 0%Z 0%nat in
  let '(num, nf, rest') :=
    match rest with
    | String "." r => let '(v, k, r') := read_digits r ip 0%nat in (v, k, r')
    | _ => (ip, 0%nat, rest)
    end in
  match rest' with
  | EmptyString =>
      if (ni + nf =? 0)%nat then None
      else Some (Qred ((if neg then (- num)%Z else num)
                         # Z.to_pos (10 ^ Z.of_nat nf)))
  | _ => None
  end.

Section Prober.
Context `{PyFloat}.

Definition ffprobe_cmd (audio_path : string) : list string :=
  ["ffprobe"; "-v"; "quiet"; "-show_entries"; "format=duration";
   "-of"; "csv=p=0"; audio_path]%string.

(** [float(result.stdout.strip())]. *)
Definition parse_duration (stdout : string) : result Q :=
  match py_float (strip stdout) with
  | Some v => Ok v
  | None =>
      Err (ValueError ("could not convert string to float: "
                         ++ str_repr (strip stdout)))
  end.

(** [get_audio_duration], given how the ffprobe process ended.  The three
    caught exceptions are re-raised as a [RuntimeError]. *)
Definition get_audio_duration (audio_path : string) (probe : proc_outcome)
    : result Q :=
  let attempt :=
    match subprocess_run (ffprobe_cmd audio_path) 30 probe with
    | Ok stdout => parse_duration stdout
    | Err e => Err e
    end in
  match attempt with
  | Ok v => Ok v
  | Err (CalledProcessError _ _ _ as e)
  | Err (ValueError _ as e)
  | Err (TimeoutExpired _ _ as e) =>
      Err (RuntimeError ("Could not determine audio duration: " ++ exn_str e))
  | Err e => Err e
  end.

(** The ways in which a probe fails.  The process did not exit with
    status 0, or not in time. *)
Definition exited_nonzero (o : proc_outcome) : Prop :=
  match o with Exited rc _ _ => rc <> 0%Z | TimedOut => False end.
Definition timed_out (o : proc_outcome) : Prop :=
  match o with Exited _ _ _ => False | TimedOut => True end.
(** [float] raises [ValueError] on the stripped output of the process. *)
Definition output_not_a_float (o : proc_outcome) : Prop :=
  match o with
  | Exited _ out _ => py_float (strip out) = None
  | TimedOut => False
  end.

(** [get_audio_chunks]: probe, then plan. [None] when the loop does not end
    within [fuel] iterations. *)
Definition get_audio_chunks (fuel : nat) (audio_path : string)
    (probe : proc_outcome) (max_duration : Q) : option (result (list window)) :=
  match get_audio_duration audio_path probe with
  | Err e => Some (Err e)
  | Ok duration =>
      match plan_chunks fuel duration max_duration with
      | Some chunks => Some (Ok chunks)
      | None => None
      end
  end.
End Prober.

(** ** Files, jobs and the collaborators of the driver *)

(** The state that [transcribe_audio] works on: the files on disk with their
    sizes, the [jobs_dict] argument ([None] when it is not passed; of a job
    record only the ['progress'] text is kept, the one field the service
    writes), and the two local lists of the function. *)
Record dstate : Type := mk_dstate {
  fs : gmap string N;
  jobs : option (gmap string string);
  temp_paths : list string;
  transcript_parts : list string
}.

Definition set_fs (f : gmap string N -> gmap string N) (s : dstate) : dstate :=
  mk_dstate (f (fs s)) (jobs s) (temp_paths s) (transcript_parts s).
Definition set_jobs (j : option (gmap string string)) (s : dstate) : dstate :=
  mk_dstate (fs s) j (temp_paths s) (transcript_parts s).
Definition set_temp_paths (l : list string) (s : dstate) : dstate :=
  mk_dstate (fs s) (jobs s) l (transcript_parts s).
Definition set_transcript_parts (l : list string) (s : dstate) : dstate :=
  mk_dstate (fs s) (jobs s) (temp_paths s) l.

(** How one run of ffmpeg ended, and what it left at its output path:
    [Some n] is a file of [n] bytes, [None] is no file. *)
Inductive ffmpeg_outcome : Type :=
  | FfExited (returncode : Z) (stderr : string) (written : option N)
  | FfTimedOut (written : option N).

(** The answer of the transcription API to one upload. *)
Inductive api_outcome : Type :=
  | Transcribed (text : string)
  | ApiRaised (e : exn).

(** What the world answers during one call of [transcribe_audio]: the cached
    client and the configured keys, the connection test, the probe, and, for
    each chunk by its index from 0, the name proposed to [mkstemp], the ffmpeg
    run and the upload. *)
Record env : Type := mk_env {
  client_cached : bool;
  settings_key : option string;
  environ_key : option string;
  models_list : option exn;
  probe : proc_outcome;
  temp_name : nat -> string;
  ffmpeg : nat -> ffmpeg_outcome;
  transcribe : nat -> api_outcome
}.

(** Truth value of an optional string: [None] and [""] are false. *)
Definition truthy (o : option string) : bool :=
  match o with
  | Some s => negb (String.eqb s "")
  | None => false
  end.

(** *** File system primitives *)

Definition path_exists (p : string) : M dstate bool :=
  fun s => Some (s, Ok (bool_decide (is_Some (fs s !! p)))).

Definition getsize (p : string) : M dstate N :=
  fun s =>
    match fs s !! p with
    | Some n => Some (s, Ok n)
    | None => Some (s, Err (FileNotFoundError p))
    end.

Definition os_remove (p : string) : M dstate unit :=
  fun s =>
    match fs s !! p with
    | Some _ => Some (set_fs (delete p) s, Ok tt)
    | None => Some (s, Err (FileNotFoundError p))
    end.

(** [open(p, "rb")]. *)
Definition open_rb (p : string) : M dstate unit :=
  fun s =>
    match fs s !! p with
    | Some _ => Some (s, Ok tt)
    | None => Some (s, Err (FileNotFoundError p))
    end.

(** [tempfile.mkstemp]: a new empty file under a name that is not in use.  The
    name is the one the environment proposes or, when that one is empty or
    taken, another unused one. *)
Definition unused_name (candidate : string) (files : gmap string N) : string :=
  let taken : gset string := {[ ""%string ]} ∪ dom files in
  if bool_decide (candidate ∈ taken) then fresh taken else candidate.

Definition mkstemp (candidate : string) : M dstate string :=
  fun s =>
    let p := unused_name candidate (fs s) in
    Some (set_fs (insert p 0%N) s, Ok p).

(** The text of a number in a command line.  Python prints the decimal form of
    the float; the model prints the fraction.  No code reads it back. *)
Definition Q_str (q : Q) : string :=
  if (Zpos (Qden q) =? 1)%Z then pretty (Qnum q)
  else pretty (Qnum q) ++ "/" ++ pretty (Zpos (Qden q)).

Definition ffmpeg_chunk_cmd (video_path : string) (start_time duration : Q)
    (temp_audio_path : string) : list string :=
  ["ffmpeg"; "-y"; "-ss"; Q_str start_time; "-t"; Q_str duration;
   "-i"; video_path; "-vn"; "-acodec"; "libmp3lame"; "-ar"; "16000";
   "-ac"; "1"; "-b:a"; "32k"; temp_audio_path]%string.

(** [subprocess.run(cmd, check=True, timeout=t)] of ffmpeg writing to [out]. *)
Definition run_ffmpeg (cmd : list string) (timeout : Z) (out : string)
    (o : ffmpeg_outcome) : M dstate unit :=
  fun s =>
    let leave (w : option N) :=
      set_fs (fun m => match w with Some n => <[out:=n]> m | None => delete out m end) s in
    match o with
    | FfExited rc err w =>
        if (rc =? 0)%Z then Some (leave w, Ok tt)
        else Some (leave w, Err (CalledProcessError rc cmd err))
    | FfTimedOut w => Some (leave w, Err (TimeoutExpired cmd timeout))
    end.

Local Open Scope monad_scope.

(** ** Chunk extractor *)

(** [if os.path.exists(p): os.remove(p)]. *)
Definition remove_if_exists (p : string) : M dstate unit :=
  let! ex := path_exists p in
  if ex then os_remove p else ret tt.

(** [not os.path.exists(p) or os.path.getsize(p) == 0]. *)
Definition missing_or_empty (p : string) : M dstate bool :=
  let! ex := path_exists p in
  if negb ex then ret true
  else (let! sz := getsize p in ret (sz =? 0)%N).

(** [extract_audio_chunk].  Only [TimeoutExpired] and [CalledProcessError] have
    a handler; the [RuntimeError] of the emptiness test is raised inside the
    [try] and leaves it as it is. *)
Definition extract_audio_chunk (video_path : string) (start_time duration : Q)
    (candidate : string) (o : ffmpeg_outcome) : M dstate string :=
  let! temp_audio_path := mkstemp candidate in
  let cmd := ffmpeg_chunk_cmd video_path start_time duration temp_audio_path in
  try_except
    (run_ffmpeg cmd 120 temp_audio_path o >>>
     let! bad := missing_or_empty temp_audio_path in
     if bad then raise (RuntimeError "Audio extraction produced empty file")
     else ret temp_audio_path)
    (fun e =>
       match e with
       | TimeoutExpired _ _ =>
           remove_if_exists temp_audio_path >>>
           raise (RuntimeError "ffmpeg timed out while extracting audio chunk")
       | CalledProcessError _ _ stderr =>
           remove_if_exists temp_audio_path >>>
           raise (RuntimeError ("ffmpeg audio extraction failed: " ++ stderr))
       | _ => raise e
       end).

(** ** Transcription driver *)

(** [update_progress]: the text is stored only for a known job. *)
Definition update_progress (job_id progress : string)
    (jobs_dict : gmap string string) : gmap string string :=
  if bool_decide (is_Some (jobs_dict !! job_id))
  then <[job_id:=progress]> jobs_dict else jobs_dict.

(** [if jobs_dict and job_id: self.update_progress(job_id, text, jobs_dict)]. *)
Definition reported (job_id : option string) (text : string)
    (jobs_dict : option (gmap string string)) : option (gmap string string) :=
  match jobs_dict, job_id with
  | Some d, Some j =>
      if bool_decide (d ≠ ∅) && truthy job_id
      then Some (update_progress j text d) else jobs_dict
  | _, _ => jobs_dict
  end.

Definition report_progress (job_id : option string) (text : string)
    : M dstate unit :=
  modify (fun s => set_jobs (reported job_id text (jobs s)) s).

(** [load_api_key] and [get_client]. *)
Definition load_api_key (E : env) : result string :=
  let api_key :=
    if truthy (settings_key E) then settings_key E else environ_key E in
  match api_key with
  | Some k =>
      if truthy api_key then Ok k
      else Err (EnvironmentError
                  "OpenAI API key not found. Please configure in settings.")
  | None => Err (EnvironmentError
                   "OpenAI API key not found. Please configure in settings.")
  end.

Definition get_client (E : env) : M dstate unit :=
  if client_cached E then ret tt
  else match load_api_key E with
       | Ok _ => ret tt
       | Err e => raise e
       end.

(** [client.models.list()], the connection test. *)
Definition test_connection (E : env) : M dstate unit :=
  try_except
    (match models_list E with Some e => raise e | None => ret tt end)
    (fun e =>
       raise (RuntimeError ("Failed to connect to OpenAI API: " ++ exn_str e))).

(** [client.audio.transcriptions.create(...)] for chunk [i]. *)
Definition api_transcribe (E : env) (i : nat) : M dstate string :=
  match transcribe E i with
  | Transcribed text => ret text
  | ApiRaised e => raise e
  end.

(** The text [i+1/total] of the progress and error messages. *)
Definition chunk_label (i total : nat) : string :=
  pretty (i + 1)%nat ++ "/" ++ pretty total.

(** The two-newline separator of the transcript. *)
Definition blank_line : string := String "010" (String "010" EmptyString).

(** [if p and os.path.exists(p): os.remove(p)]. *)
Definition remove_temp (p : string) : M dstate unit :=
  let! ex := path_exists p in
  if truthy (Some p) && ex then os_remove p else ret tt.

(** The [try] block of one iteration: extract, record the path, upload. *)
Definition extract_and_upload (E : env) (input_path : string) (i : nat)
    (w : window) : M dstate string :=
  let! p := extract_audio_chunk input_path (fst w) (snd w)
              (temp_name E i) (ffmpeg E i) in
  modify (fun s => set_temp_paths (temp_paths s ++ [p]) s) >>>
  open_rb p >>>
  let! _sz := getsize p in
  let! text := api_transcribe E i in
  modify (fun s => set_transcript_parts (transcript_parts s ++ [text]) s) >>>
  ret p.

(** One iteration of the [for i, (start, chunk_duration) in enumerate(chunks)]
    loop. *)
Definition process_chunk (E : env) (input_path : string)
    (job_id : option string) (total i : nat) (w : window) : M dstate unit :=
  report_progress job_id ("Processing chunk " ++ chunk_label i total ++ "...") >>>
  let! temp_chunk_path :=
    try_except (extract_and_upload E input_path i w)
      (fun e =>
         raise (RuntimeError ("Failed to process audio chunk "
                                ++ chunk_label i total ++ ": " ++ exn_str e))) in
  remove_temp temp_chunk_path.

(** The [finally] block: every recorded temp file that still exists goes. *)
Definition remove_temp_paths : M dstate unit :=
  let! s := get in
  for_each remove_temp (temp_paths s).

Section Driver.
Context `{PyFloat}.

(** [chunks = self.get_audio_chunks(input_path)]. *)
Definition plan_step (fuel : nat) (E : env) (input_path : string)
    : M dstate (list window) :=
  fun s =>
    match get_audio_chunks fuel input_path (probe E) default_max_duration with
    | Some r => Some (s, r)
    | None => None
    end.

(** The body of the [try] of [transcribe_audio]. *)
Definition transcribe_body (fuel : nat) (E : env) (input_path : string)
    (job_id : option string) : M dstate string :=
  report_progress job_id "Starting transcription..." >>>
  let! ex := path_exists input_path in
  (if negb ex
   then raise (FileNotFoundError ("Input file not found: " ++ input_path))
   else ret tt) >>>
  let! _sz := getsize input_path in
  get_client E >>>
  test_connection E >>>
  let! chunks := plan_step fuel E input_path in
  modify (set_transcript_parts []) >>>
  for_enumerate (process_chunk E input_path job_id (length chunks)) 0 chunks >>>
  let! s := get in
  ret (String.concat blank_line (transcript_parts s)).

(** [transcribe_audio]; [fuel] bounds the planner's loop. *)
Definition transcribe_audio (fuel : nat) (E : env) (input_path : string)
    (job_id : option string) : M dstate string :=
  modify (set_temp_paths []) >>>
  try_finally (transcribe_body fuel E input_path job_id) remove_temp_paths.
End Driver.

(** ** Retention sweep *)

(** What [iterdir] finds in a directory. [is_file()] holds of a
    [RegularFile], [is_dir()] of a [Directory], neither of the rest. *)
Inductive kind : Type := RegularFile | Directory | OtherKind.

Definition kind_eqb (a b : kind) : bool :=
  match a, b with
  | RegularFile, RegularFile | Directory, Directory | OtherKind, OtherKind => true
  | _, _ => false
  end.

(** A directory entry: its name, kind and modification time, and the error
    that deleting it ([unlink] of a file, [shutil.rmtree] of a directory)
    raises, if any.  An entry whose deletion raises stays listed. *)
Record entry : Type := mk_entry {
  e_name : string;
  e_kind : kind;
  e_mtime : Q;
  e_delete_error : option string
}.

(** The working directories by name (a directory that does not exist has no
    binding) and the lines printed so far. *)
Record sstate : Type := mk_sstate {
  dirs : gmap string (list entry);
  printed : list string
}.

Definition print (line : string) : M sstate unit :=
  modify (fun s => mk_sstate (dirs s) (printed s ++ [line])).

(** One [for ... in d.iterdir()] loop over the entries [es] of directory [dir]:
    the entries left in the directory, the lines printed, and the exception
    that ended the loop, if any.  [target] is the kind that the loop's test
    selects, [what] the word of its message. *)
Fixpoint sweep_entries (dir what : string) (target : kind)
    (cutoff_timestamp : Q) (es : list entry)
    : list entry * list string * result unit :=
  match es with
  | [] => ([], [], Ok tt)
  | e :: rest =>
      if kind_eqb (e_kind e) target && Qltb (e_mtime e) cutoff_timestamp then
        match e_delete_error e with
        | Some msg => (e :: rest, [], Err (OSError msg))
        | None =>
            let '(kept, lines, r) :=
              sweep_entries dir what target cutoff_timestamp rest in
            (kept,
             ("Cleaned up old " ++ what ++ ": " ++ dir ++ "/" ++ e_name e)%string
               :: lines,
             r)
        end
      else
        let '(kept, lines, r) :=
          sweep_entries dir what target cutoff_timestamp rest in
        (e :: kept, lines, r)
  end.

(** [if d.exists(): for ... in d.iterdir(): ...]. *)
Definition sweep_dir (dir what : string) (target : kind) (cutoff_timestamp : Q)
    : M sstate unit :=
  fun s =>
    match dirs s !! dir with
    | None => Some (s, Ok tt)
    | Some es =>
        let '(kept, lines, r) :=
          sweep_entries dir what target cutoff_timestamp es in
        Some (mk_sstate (<[dir:=kept]> (dirs s)) (printed s ++ lines), r)
    end.

(** [(datetime.now() - timedelta(hours=h)).timestamp()], with [now] the
    timestamp of [datetime.now()] and no change of the UTC offset between the
    two instants. *)
Definition cutoff (now : Q) (max_age_hours : Z) : Q :=
  now - inject_Z max_age_hours * 3600.

(** [cleanup_old_files]: one [try] around the three loops. *)
Definition cleanup_old_files (now : Q) (max_age_hours : Z) : M sstate unit :=
  try_except
    (let cutoff_timestamp := cutoff now max_age_hours in
     sweep_dir "uploads" "upload" RegularFile cutoff_timestamp >>>
     sweep_dir "chunks" "chunks" Directory cutoff_timestamp >>>
     sweep_dir "audio" "download" RegularFile cutoff_timestamp >>>
     print ("Auto-cleanup completed: removed files older than "
              ++ pretty max_age_hours ++ " hours"))
    (fun e => print ("Auto-cleanup error: " ++ exn_str e)).

(** [cleanup_on_startup]. *)
Definition cleanup_on_startup (now : Q) : M sstate unit :=
  print "Running startup cleanup..." >>>
  cleanup_old_files now 24.

(** ** Runs of the driver *)

(** The exception that the loop raises for chunk [i] of [total]. *)
Definition chunk_error (i total : nat) (msg : string) : exn :=
  RuntimeError ("Failed to process audio chunk "
                  ++ chunk_label i total ++ ": " ++ msg).

(** The state in which the loop starts. *)
Definition loop_start (job_id : option string) (s : dstate) : dstate :=
  mk_dstate (fs s)
    (reported job_id "Starting transcription..." (jobs s)) [] [].

(** The text of the exception that processing chunk [i] raises inside the
    [try] of the loop, [None] when extraction and upload both succeed. *)
Definition chunk_failure (E : env) (i : nat) : option string :=
  match ffmpeg E i with
  | FfTimedOut _ => Some "ffmpeg timed out while extracting audio chunk"%string
  | FfExited rc err w =>
      if (rc =? 0)%Z then
        match w with
        | None => Some "Audio extraction produced empty file"%string
        | Some n =>
            if (n =? 0)%N then Some "Audio extraction produced empty file"%string
            else match transcribe E i with
                 | Transcribed _ => None
                 | ApiRaised e => Some (exn_str e)
                 end
        end
      else Some ("ffmpeg audio extraction failed: " ++ err)%string
  end.

(** Extraction of chunk [i] ends with status 0 and leaves an empty file. *)
Definition leaves_empty_file (E : env) (i : nat) : Prop :=
  exists err, ffmpeg E i = FfExited 0 err (Some 0%N).

(** The recorded temp paths are proper names of files that [files] does not
    hold. *)
Definition temps_ok (files : gmap string N) (l : list string) : Prop :=
  Forall (fun q => q <> ""%string /\ files !! q = None) l.

(** The text that the API returns for chunk [i]. *)
Definition chunk_text (E : env) (i : nat) : string :=
  match transcribe E i with
  | Transcribed text => text
  | ApiRaised _ => EmptyString
  end.

(** The steps before the loop succeed: the input file exists, a client is at
    hand, the connection test passes and the planner returns [chunks]. *)
Definition ready `{PyFloat} (fuel : nat) (E : env) (input_path : string)
    (s : dstate) (chunks : list window) : Prop :=
  is_Some (fs s !! input_path)
  /\ (client_cached E = true \/ exists k, load_api_key E = Ok k)
  /\ models_list E = None
  /\ get_audio_chunks fuel input_path (probe E) default_max_duration
     = Some (Ok chunks).

(** ** Runs of the sweep *)

(** The test of a sweep loop: the entry is of the kind that the loop deletes
    and its modification time is before the cutoff. *)
Definition stale (target : kind) (cutoff_timestamp : Q) (e : entry) : bool :=
  kind_eqb (e_kind e) target && Qltb (e_mtime e) cutoff_timestamp.

(** The entries of a directory, none when it does not exist. *)
Definition listing (s : sstate) (dir : string) : list entry :=
  default [] (dirs s !! dir).

(** No deletion that the loop attempts on [es] fails. *)
Definition deletions_succeed (target : kind) (cutoff_timestamp : Q)
    (es : list entry) : Prop :=
  Forall (fun e => stale target cutoff_timestamp e = true ->
                   e_delete_error e = None) es.

(** The first deletion that fails in the loop over [es] is that of [e], which
    raises [msg]; [pre] comes before [e] and [post] after it. *)
Definition stuck_at (target : kind) (cutoff_timestamp : Q) (es : list entry)
    (pre : list entry) (e : entry) (post : list entry) (msg : string) : Prop :=
  es = pre ++ e :: post
  /\ deletions_succeed target cutoff_timestamp pre
  /\ stale target cutoff_timestamp e = true
  /\ e_delete_error e = Some msg.

(** What a loop leaves of [es] when it deletes every stale entry. *)
Definition survivors (target : kind) (cutoff_timestamp : Q) (es : list entry)
    : list entry :=
  filter (fun e => stale target cutoff_timestamp e = false) es.

(** ** Sample runs *)

Definition newline : string := String "010" EmptyString.

(** A disk that holds the input file and nothing else; no job registry. *)
Definition sample_start : dstate :=
  mk_dstate {[ "talk.mp4"%string := 1000000%N ]} None [] [].

Definition sample_temp_name (i : nat) : string :=
  ("/tmp/tmp" ++ pretty i ++ ".mp3")%string.

(** A file of 700 seconds, hence of two chunks, transcribed as "Hello" and
    "world". *)
Definition hello_world_env : env :=
  mk_env false (Some "sk-test"%string) None None
    (Exited 0 ("700.000000" ++ newline) "")
    sample_temp_name
    (fun _ => FfExited 0 "" (Some 4096%N))
    (fun i => Transcribed (if (i =? 0)%nat then "Hello" else "world")).

(** A file of 1205 seconds, hence of three chunks, in which the upload of the
    second chunk raises. *)
Definition upload_fails_env : env :=
  mk_env false (Some "sk-test"%string) None None
    (Exited 0 ("1205.000000" ++ newline) "")
    sample_temp_name
    (fun _ => FfExited 0 "" (Some 4096%N))
    (fun i => if (i =? 1)%nat then ApiRaised (APIError "Connection error.")
              else Transcribed "text").

(** The same file when ffmpeg exits with status 0 on the second chunk and
    leaves its output file empty. *)
Definition empty_output_env : env :=
  mk_env false (Some "sk-test"%string) None None
    (Exited 0 ("1205.000000" ++ newline) "")
    sample_temp_name
    (fun i => if (i =? 1)%nat then FfExited 0 "" (Some 0%N)
              else FfExited 0 "" (Some 4096%N))
    (fun _ => Transcribed "text").

(** A sweep at time [sample_now] over an [uploads] directory that holds a file
    and a subdirectory modified 25 hours ago and a file modified one hour
    ago. *)
Definition sample_now : Q := 1800000000.

Definition day_old_file : entry :=
  mk_entry "old.mp3" RegularFile (sample_now - 25 * 3600) None.
Definition hour_old_file : entry :=
  mk_entry "new.mp3" RegularFile (sample_now - 1 * 3600) None.
Definition day_old_subdir : entry :=
  mk_entry "session" Directory (sample_now - 25 * 3600) None.

Definition sample_dirs : sstate :=
  mk_sstate {[ "uploads"%string := [day_old_file; hour_old_file; day_old_subdir] ]}
    [].

(** A file modified 25 hours ago whose deletion is refused, listed before
    [day_old_file]. *)
Definition locked_file : entry :=
  mk_entry "locked.mp3" RegularFile (sample_now - 25 * 3600)
    (Some "[Errno 13] Permission denied: 'uploads/locked.mp3'"%string).

Definition locked_dirs : sstate :=
  mk_sstate {[ "uploads"%string := [locked_file; day_old_file] ]} [].

(** ** The shape of a plan *)

(** The distance between the starts of two adjacent windows. *)
Definition stride (max_duration : Q) : Q := max_duration - overlap.

(** The closed form of a plan of [k] full windows and a final one. *)
Definition expected_windows (k : nat) (duration max_duration : Q)
    : list window :=
  map (fun i => (inject_Z (Z.of_nat i) * stride max_duration, max_duration))
    (seq 0 k)
  ++ [(inject_Z (Z.of_nat k) * stride max_duration,
       duration - inject_Z (Z.of_nat k) * stride max_duration + pad)].

(** Every window is longer than the pad and at most [max_duration + overlap]
    plus the pad long. *)
Definition lengths_bounded (max_duration : Q) (ws : list window) : Prop :=
  Forall (fun w => pad < w_len w /\ w_len w <= max_duration + overlap + pad) ws.

(** Each window ends exactly [overlap] seconds after the next one starts. *)
Fixpoint overlaps_exactly (ws : list window) : Prop :=
  match ws with
  | w1 :: (w2 :: _) as tl =>
      w_end w1 - w_start w2 == overlap /\ overlaps_exactly tl
  | _ => True
  end.

(** ** Whole-file extraction *)

Definition ffmpeg_video_cmd (video_path temp_audio_path : string)
    : list string :=
  ["ffmpeg"; "-y"; "-i"; video_path; "-vn"; "-acodec"; "libmp3lame";
   "-ar"; "16000"; "-ac"; "1"; "-b:a"; "32k"; temp_audio_path]%string.

(** [extract_audio_from_video]: the same steps as [extract_audio_chunk] on the
    whole file, with a time limit of 300 seconds. *)
Definition extract_audio_from_video (video_path candidate : string)
    (o : ffmpeg_outcome) : M dstate string :=
  let! temp_audio_path := mkstemp candidate in
  let cmd := ffmpeg_video_cmd video_path temp_audio_path in
  try_except
    (run_ffmpeg cmd 300 temp_audio_path o >>>
     let! bad := missing_or_empty temp_audio_path in
     if bad then raise (RuntimeError "Audio extraction produced empty file")
     else ret temp_audio_path)
    (fun e =>
       match e with
       | TimeoutExpired _ _ =>
           remove_if_exists temp_audio_path >>>
           raise (RuntimeError "ffmpeg timed out during audio extraction")
       | CalledProcessError _ _ stderr =>
           remove_if_exists temp_audio_path >>>
           raise (RuntimeError ("ffmpeg failed: " ++ stderr))
       | _ => raise e
       end).

(** The state in which the driver raises an error of the steps before the
    loop: the first progress report is made and no temp path is recorded. *)
Definition started (job_id : option string) (s : dstate) : dstate :=
  set_jobs (reported job_id "Starting transcription..." (jobs s))
    (set_temp_paths [] s).

(** A run whose probe fails: ffprobe prints [N/A]. *)
Definition no_duration_env : env :=
  mk_env false (Some "sk-test"%string) None None
    (Exited 0 ("N/A" ++ newline) "")
    sample_temp_name
    (fun _ => FfExited 0 "" (Some 4096%N))
    (fun _ => Transcribed "text").

(** A run without any API key, and one whose connection test fails. *)
Definition no_key_env : env :=
  mk_env false None (Some ""%string) None
    (Exited 0 ("700.000000" ++ newline) "")
    sample_temp_name
    (fun _ => FfExited 0 "" (Some 4096%N))
    (fun _ => Transcribed "text").

Definition offline_env : env :=
  mk_env true None None (Some (APIError "Connection error."))
    (Exited 0 ("700.000000" ++ newline) "")
    sample_temp_name
    (fun _ => FfExited 0 "" (Some 4096%N))
    (fun _ => Transcribed "text").

(** ** Job identifiers *)

(** The identifiers of the jobs of a [jobs_dict], if one is passed. *)
Definition job_ids (jobs_dict : option (gmap string string))
    : option (gset string) :=
  dom <$> jobs_dict.

(** A computation that leaves the job registry as it is, and one that keeps
    at least its identifiers. *)
Definition keeps_jobs {A} (m : M dstate A) : Prop :=
  forall s s' r, m s = Some (s', r) -> jobs s' = jobs s.

Definition keeps_job_ids {A} (m : M dstate A) : Prop :=
  forall s s' r, m s = Some (s', r) -> job_ids (jobs s') = job_ids (jobs s).

(** The progress text while chunk [i] of [total] is processed. *)
Definition chunk_progress (i total : nat) : string :=
  "Processing chunk " ++ chunk_label i total ++ "...".

(** The sample disk with a registry that knows one job. *)
Definition sample_with_job : dstate :=
  mk_dstate {[ "talk.mp4"%string := 1000000%N ]}
    (Some {[ "job-1"%string := "queued"%string ]}) [] [].

(** ** What a sweep may change *)

(** [s'] has the directories of [s], each with some of its entries of [s] in
    their order, and directories other than the three swept ones as they
    were. *)
Definition only_removes (s s' : sstate) : Prop :=
  dom (dirs s') = dom (dirs s)
  /\ (forall d, sublist (listing s' d) (listing s d))
  /\ (forall d, d <> "uploads"%string -> d <> "chunks"%string ->
                d <> "audio"%string -> dirs s' !! d = dirs s !! d).

(** ** The summary of the e-mail report *)

(** [s.split(sep)] for a separator of one character. *)
Fixpoint split_on (sep : ascii) (s : string) : list string :=
  match s with
  | EmptyString => [EmptyString]
  | String a s' =>
      if Ascii.eqb a sep then EmptyString :: split_on sep s'
      else match split_on sep s' with
           | x :: xs => String a x :: xs
           | [] => [String a EmptyString]
           end
  end.

(** Truth value of a string: only [""] is false. *)
Definition nonempty (s : string) : bool := negb (String.eqb s "").

(** The loop of [send_email_report] over the first lines of the analysis:
    a line that is not blank is appended stripped, and the loop ends once 8
    lines are collected. *)
Fixpoint summary_loop (lines summary_lines : list string) : list string :=
  match lines with
  | [] => summary_lines
  | line :: rest =>
      let summary_lines :=
        if nonempty (strip line) then summary_lines ++ [strip line]
        else summary_lines in
      if (8 <=? length summary_lines)%nat then summary_lines
      else summary_loop rest summary_lines
  end.

Definition summary_footer : string :=
  String "010" (String "010"
    "[See attached files for complete analysis and transcript]").

(** The [summary] that [send_email_report] puts into the body of the mail. *)
Definition email_summary (analysis : string) : string :=
  let analysis_lines := split_on "010" analysis in
  let summary_lines := summary_loop (take 15 analysis_lines) [] in
  let summary := String.concat newline summary_lines in
  if (15 <? length analysis_lines)%nat then (summary ++ summary_footer)%string
  else summary.

(** The stripped forms of the lines that are not blank. *)
Definition meaningful_lines (lines : list string) : list string :=
  filter (fun l => nonempty l = true) (map strip lines).

(** * Properties *)

(** ** Comparisons *)

Lemma Qltb_true a b : Qltb a b = true <-> a < b.
Proof.
  unfold Qltb. rewrite negb_true_iff. split.
  - intros H. apply Qnot_le_lt. intros Hle.
    apply Qle_bool_iff in Hle. congruence.
  - intros H. destruct (Qle_bool b a) eqn:E; [|reflexivity].
    apply Qle_bool_iff in E. lra.
Qed.

Lemma Qltb_false a b : Qltb a b = false <-> b <= a.
Proof.
  unfold Qltb. rewrite negb_false_iff. apply Qle_bool_iff.
Qed.

Lemma Qleb_true a b : Qleb a b = true <-> a <= b.
Proof. apply Qle_bool_iff. Qed.

Lemma Qleb_false a b : Qleb a b = false <-> b < a.
Proof.
  unfold Qleb. split.
  - intros H. apply Qnot_le_lt. intros Hle.
    apply Qle_bool_iff in Hle. congruence.
  - intros H. destruct (Qle_bool a b) eqn:E; [|reflexivity].
    apply Qle_bool_iff in E. lra.
Qed.

(** ** Media prober *)

Section ProberFacts.
Context `{PyFloat}.

(** C4, amended: the prober raises exactly when the probe process exits
    non-zero, times out, or prints text on which [float] raises
    [ValueError]; every number that [float] returns is returned as it is,
    with no test of its sign, so zero and negative numbers are returned. *)
Theorem get_audio_duration_raises_iff :
  (forall audio_path o,
     is_Err (get_audio_duration audio_path o)
     <-> exited_nonzero o \/ timed_out o \/ output_not_a_float o)
  /\ (forall audio_path out err,
        get_audio_duration audio_path (Exited 0 out err)
        = match py_float (strip out) with
          | Some v => Ok v
          | None =>
              Err (RuntimeError
                     ("Could not determine audio duration: "
                        ++ "could not convert string to float: "
                        ++ str_repr (strip out)))
          end).
Proof.
  split.
  - intros audio_path [rc out err|]; unfold get_audio_duration; simpl.
    + destruct (Z.eqb_spec rc 0) as [->|Hrc]; simpl.
      * unfold parse_duration. destruct (py_float (strip out)); simpl.
        -- split; [done|]. intros [?|[[]|?]]; done.
        -- split; [|done]. by right; right.
      * split; [|done]. by left.
    + split; [|done]. by right; left.
  - intros audio_path out err. unfold get_audio_duration, parse_duration.
    simpl. by destruct (py_float (strip out)).
Qed.
End ProberFacts.

(** C4, as stated, fails: ffprobe exits with status 0 and prints a zero or a
    negative duration, and the prober returns that number and raises
    nothing. *)
Lemma zero_and_negative_probe_are_returned :
  @get_audio_duration decimal_float "a.mp3"
     (Exited 0 ("0.000000" ++ String "010" "") "") = Ok 0
  /\ @get_audio_duration decimal_float "a.mp3"
       (Exited 0 ("-5.000000" ++ String "010" "") "") = Ok (-5).
Proof. split; reflexivity. Qed.

(** ** Chunk planner *)

Section Planner.
Local Open Scope Q_scope.

(** One iteration of the loop. *)
Lemma chunk_loop_S fuel duration max_duration start acc :
  chunk_loop (S fuel) duration max_duration start acc
  = if Qltb start duration then
      let remaining := duration - start in
      let c := if Qleb remaining (max_duration + overlap)
               then remaining + pad else Qmin max_duration remaining in
      if Qleb duration (start + c) then Some (acc ++ [(start, c)])
      else chunk_loop fuel duration max_duration
             (start + (max_duration - overlap)) (acc ++ [(start, c)])
    else Some acc.
Proof. reflexivity. Qed.

(** The list built so far is a prefix of the result and plays no other
    part in the loop. *)
Lemma chunk_loop_acc fuel duration max_duration start acc :
  chunk_loop fuel duration max_duration start acc
  = (fun ws => acc ++ ws) <$> chunk_loop fuel duration max_duration start [].
Proof.
  revert start acc. induction fuel as [|fuel IH]; intros start acc; simpl.
  - reflexivity.
  - destruct (Qltb start duration); simpl; [|by rewrite app_nil_r].
    set (c := if Qleb (duration - start) _ then _ else _).
    destruct (Qleb duration (start + c)); simpl; [reflexivity|].
    rewrite (IH _ (acc ++ [(start, c)])), (IH _ [(start, c)]).
    destruct (chunk_loop fuel _ _ _ []); simpl; [|reflexivity].
    by rewrite <- app_assoc.
Qed.

(** One more unit of fuel does not change a result. *)
Lemma chunk_loop_fuel_S fuel duration max_duration start acc ws :
  chunk_loop fuel duration max_duration start acc = Some ws ->
  chunk_loop (S fuel) duration max_duration start acc = Some ws.
Proof.
  revert start acc. induction fuel as [|fuel IH]; intros start acc; [done|].
  intros Hrun. simpl in Hrun. cbn [chunk_loop].
  destruct (Qltb start duration); [|exact Hrun].
  set (c := if Qleb (duration - start) _ then _ else _) in *.
  destruct (Qleb duration (start + c)); [exact Hrun|].
  apply IH, Hrun.
Qed.

Lemma chunk_loop_fuel_add extra fuel duration max_duration start acc ws :
  chunk_loop fuel duration max_duration start acc = Some ws ->
  chunk_loop (extra + fuel) duration max_duration start acc = Some ws.
Proof.
  intros Hrun. induction extra as [|extra IH]; [exact Hrun|].
  by apply chunk_loop_fuel_S.
Qed.

(** The number of strides after which the rest fits one final window. *)
Lemma strides_exist duration max_duration start :
  overlap < max_duration -> start < duration ->
  exists k : nat,
    duration - start
    <= inject_Z (Z.of_nat k) * (max_duration - overlap)
       + (max_duration + overlap).
Proof.
  unfold overlap. intros HM Hs.
  set (x := (duration - start) / (max_duration - 10)).
  assert (Hne : ~ max_duration - 10 == 0) by lra.
  assert (Hx : (max_duration - 10) * x == duration - start)
    by (unfold x; by apply Qmult_div_r).
  assert (Hc := Qle_ceiling x).
  assert (Hx0 : 0 <= x) by nra.
  assert (Hc0 : (0 <= Qceiling x)%Z).
  { rewrite Zle_Qle. change (inject_Z 0) with 0. lra. }
  exists (Z.to_nat (Qceiling x)). rewrite Z2Nat.id by exact Hc0.
  nra.
Qed.

(** The loop entered at [start] with [k] strides to go: it ends within
    [S k] iterations, its first window starts at [start], and its windows
    are ordered, gapless and reach the end of the file. *)
Lemma chunk_loop_from (k : nat) duration max_duration start :
  overlap < max_duration -> start < duration ->
  duration - start
  <= inject_Z (Z.of_nat k) * (max_duration - overlap)
     + (max_duration + overlap) ->
  exists ws,
    chunk_loop (S k) duration max_duration start [] = Some ws
    /\ (exists w tl, ws = w :: tl /\ w_start w = start)
    /\ contiguous ws /\ starts_nondecreasing ws /\ covers_end duration ws.
Proof.
  intros HM. revert start. induction k as [|k IH]; intros start Hs Hk.
  all: rewrite chunk_loop_S; cbv zeta.
  all: apply Qltb_true in Hs as Hlt; rewrite Hlt; clear Hlt.
  all: destruct (Qleb (duration - start) (max_duration + overlap)) eqn:Hfin.
  all: try (apply Qleb_false in Hfin).
  - (* the final window *)
    assert (Hend : Qleb duration (start + (duration - start + pad)) = true)
      by (apply Qleb_true; unfold pad; lra).
    rewrite Hend. eexists. split; [reflexivity|].
    repeat split; eauto. unfold covers_end, w_end; simpl. unfold pad; lra.
  - exfalso. change (inject_Z (Z.of_nat 0)) with 0 in Hk. lra.
  - assert (Hend : Qleb duration (start + (duration - start + pad)) = true)
      by (apply Qleb_true; unfold pad; lra).
    rewrite Hend. eexists. split; [reflexivity|].
    repeat split; eauto. unfold covers_end, w_end; simpl. unfold pad; lra.
  - (* a full window, then a stride *)
    set (c := Qmin max_duration (duration - start)).
    assert (Hc : c == max_duration).
    { apply Q.min_l. unfold overlap in *. lra. }
    assert (Hgo : Qleb duration (start + c) = false).
    { apply Qleb_false. unfold overlap in *. lra. }
    rewrite Hgo. simpl app.
    destruct (IH (start + (max_duration - overlap)))
      as (ws & Hrun & (w & tl & -> & Hw) & Hcont & Hmono & Hcov).
    { unfold overlap in *. lra. }
    { rewrite Nat2Z.inj_succ, <- Z.add_1_r, inject_Z_plus in Hk.
      change (inject_Z 1) with 1 in Hk. unfold overlap in *. lra. }
    rewrite chunk_loop_acc, Hrun. simpl.
    eexists. split; [reflexivity|]. split; [eauto|].
    split; [|split].
    + split; [|exact Hcont]. unfold w_end; simpl. rewrite Hw.
      unfold overlap in *. lra.
    + split; [|exact Hmono]. simpl. rewrite Hw. unfold overlap in *. lra.
    + exact Hcov.
Qed.
(** Above 600 seconds, with a maximal chunk length above the overlap, the
    planner returns, and its windows are ordered, gapless and reach the end
    of the file. *)
Lemma plan_chunks_long duration max_duration :
  600 < duration -> overlap < max_duration ->
  exists fuel ws,
    (forall extra,
       plan_chunks (extra + fuel) duration max_duration = Some ws)
    /\ contiguous ws /\ starts_nondecreasing ws /\ covers_end duration ws.
Proof.
  intros Hd HM.
  destruct (strides_exist duration max_duration 0 HM) as [k Hk]; [lra|].
  destruct (chunk_loop_from k duration max_duration 0 HM)
    as (ws & Hrun & _ & Hprops); [lra|exact Hk|].
  exists (S k), ws. split; [|exact Hprops].
  intros extra. unfold plan_chunks.
  apply Qleb_false in Hd as ->. by apply chunk_loop_fuel_add.
Qed.

(** The run of the planner on 1205 seconds with the default arguments. *)
Lemma plan_1205_run extra :
  plan_chunks (extra + 3) 1205 default_max_duration
  = Some [(0, 600); (590, 600); (1180, 51 # 2)].
Proof. unfold plan_chunks. simpl. by apply chunk_loop_fuel_add. Qed.

(** C5: for every duration with [0 < duration <= 600] the planner, called
    with the default maximal chunk length, returns exactly the one window
    [(0, duration + 0.5)], whatever the fuel. *)
Theorem single_window_up_to_600 fuel duration :
  0 < duration -> duration <= 600 ->
  plan_chunks fuel duration default_max_duration
  = Some [(0, duration + (1 # 2))].
Proof.
  intros _ Hd. unfold plan_chunks. by apply Qleb_true in Hd as ->.
Qed.

Lemma single_window_up_to_600_witness :
  0 < 300 /\ 300 <= 600
  /\ plan_chunks 0 300 default_max_duration = Some [(0, 300 + (1 # 2))].
Proof.
  split; [lra|]. split; [lra|].
  apply (single_window_up_to_600 0 300); lra.
Defined.

(** C10: the single-window test compares the duration with the constant 600
    and not with [max_duration]: for every [max_duration], a duration of at
    most 600 gives the one window [(0, duration + 0.5)], also when
    [max_duration] is below the duration. *)
Theorem single_window_test_ignores_max_duration fuel duration max_duration :
  duration <= 600 ->
  plan_chunks fuel duration max_duration = Some [(0, duration + (1 # 2))].
Proof.
  intros Hd. unfold plan_chunks. by apply Qleb_true in Hd as ->.
Qed.

Lemma single_window_test_ignores_max_duration_witness :
  100 < 500 /\ 500 <= 600
  /\ plan_chunks 0 500 100 = Some [(0, 500 + (1 # 2))].
Proof.
  split; [lra|]. split; [lra|].
  apply (single_window_test_ignores_max_duration 0 500 100); lra.
Defined.

(** C2, as stated, fails: no run of the planner on 1205 seconds with the
    default arguments returns the two windows [(0, 600); (590, 625.5)].
    Every number of this run is an integer or a half below 2^53, so the
    floats of the source compute the same values. *)
Lemma plan_1205_is_not_two_windows :
  ~ exists fuel ws,
      plan_chunks fuel 1205 default_max_duration = Some ws
      /\ windows_eq ws [(0, 600); (590, 625 + (1 # 2))].
Proof.
  intros (fuel & ws & Hrun & Heq).
  destruct fuel as [|[|[|fuel]]]; try (vm_compute in Hrun; discriminate).
  replace (S (S (S fuel))) with (fuel + 3)%nat in Hrun by lia.
  rewrite plan_1205_run in Hrun. injection Hrun as <-.
  apply Forall2_length in Heq. discriminate.
Qed.

(** C2, amended: on 1205 seconds with the default arguments the planner
    returns the three windows [(0, 600); (590, 600); (1180, 25.5)]; at
    start 590 the remaining 615 seconds exceed 600 + 10, so the fold into a
    final window happens one stride later. *)
Theorem plan_1205_three_windows :
  exists ws,
    (forall extra,
       plan_chunks (extra + 3) 1205 default_max_duration = Some ws)
    /\ windows_eq ws [(0, 600); (590, 600); (1180, 25 + (1 # 2))].
Proof.
  eexists. split; [exact plan_1205_run|].
  repeat constructor; reflexivity.
Qed.

(** C3: for every duration above 600 the planner, called with the default
    maximal chunk length, returns a window list (with enough fuel, and then
    with any more) in which every window reaches the start of the next one,
    start times never decrease, and the last window ends at or after the
    duration. *)
Theorem windows_cover_contiguously duration :
  600 < duration ->
  exists fuel ws,
    (forall extra,
       plan_chunks (extra + fuel) duration default_max_duration = Some ws)
    /\ contiguous ws /\ starts_nondecreasing ws /\ covers_end duration ws.
Proof.
  intros Hd. apply plan_chunks_long; [exact Hd|].
  unfold overlap, default_max_duration. lra.
Qed.

Lemma windows_cover_contiguously_witness :
  600 < 1205
  /\ exists fuel ws,
       (forall extra,
          plan_chunks (extra + fuel) 1205 default_max_duration = Some ws)
       /\ contiguous ws /\ starts_nondecreasing ws /\ covers_end 1205 ws.
Proof.
  split; [lra|]. apply (windows_cover_contiguously 1205). lra.
Defined.
End Planner.

(** ** The monad *)

Section MonadFacts.
Context {St A B : Type}.

Lemma bind_ok (m : M St A) (k : A -> M St B) s s' a :
  m s = Some (s', Ok a) -> bind m k s = k a s'.
Proof. unfold bind. by intros ->. Qed.

Lemma bind_err (m : M St A) (k : A -> M St B) s s' e :
  m s = Some (s', Err e) -> bind m k s = Some (s', Err e).
Proof. unfold bind. by intros ->. Qed.

Lemma try_except_ok (m : M St A) h s s' a :
  m s = Some (s', Ok a) -> try_except m h s = Some (s', Ok a).
Proof. unfold try_except. by intros ->. Qed.

Lemma try_except_err (m : M St A) h s s' e :
  m s = Some (s', Err e) -> try_except m h s = h e s'.
Proof. unfold try_except. by intros ->. Qed.
End MonadFacts.

(** ** Chunk extractor *)

Lemma unused_name_spec candidate (files : gmap string N) :
  unused_name candidate files <> ""%string
  /\ files !! unused_name candidate files = None.
Proof.
  unfold unused_name.
  set (taken := ({[ ""%string ]} ∪ dom files : gset string)).
  assert (Hout : forall p, p ∉ taken -> p <> ""%string /\ files !! p = None).
  { intros p Hp. split.
    - intros ->. apply Hp. unfold taken. set_solver.
    - apply not_elem_of_dom. intros Hd. apply Hp. unfold taken. set_solver. }
  case_bool_decide as Hc; apply Hout; [apply is_fresh|exact Hc].
Qed.

(** What [extract_audio_chunk] does for each outcome of ffmpeg, with [p] the
    name of its temp file.  After a time-out or a non-zero exit the file is
    gone; after an exit with status 0 and an empty file it stays. *)
Lemma extract_audio_chunk_run video_path start_time duration candidate o s :
  extract_audio_chunk video_path start_time duration candidate o s
  = let p := unused_name candidate (fs s) in
    match o with
    | FfTimedOut _ =>
        Some (s, Err (RuntimeError
                        "ffmpeg timed out while extracting audio chunk"))
    | FfExited rc err w =>
        if (rc =? 0)%Z then
          match w with
          | None =>
              Some (s, Err (RuntimeError "Audio extraction produced empty file"))
          | Some n =>
              if (n =? 0)%N
              then Some (set_fs (insert p 0%N) s,
                         Err (RuntimeError "Audio extraction produced empty file"))
              else Some (set_fs (insert p n) s, Ok p)
          end
        else Some (s, Err (RuntimeError
                             ("ffmpeg audio extraction failed: " ++ err)))
    end.
Proof.
  destruct (unused_name_spec candidate (fs s)) as [_ Hfree].
  destruct s as [files js tp parts]. simpl in *.
  set (p := unused_name candidate files) in *.
  cbv beta iota zeta delta
    [extract_audio_chunk bind try_except mkstemp run_ffmpeg missing_or_empty
     remove_if_exists path_exists getsize os_remove raise ret set_fs
     fs jobs temp_paths transcript_parts].
  fold p.
  destruct o as [rc err [n|]|[n|]].
  all: try destruct (rc =? 0)%Z.
  all: rewrite ?insert_insert_eq, ?lookup_insert_eq, ?lookup_delete_eq.
  all: rewrite ?bool_decide_eq_true_2 by eauto.
  all: rewrite ?bool_decide_eq_false_2 by (intros [? ?]; done).
  all: cbv beta iota zeta delta [negb].
  all: rewrite ?lookup_insert_eq, ?lookup_delete_eq.
  all: rewrite ?delete_insert_eq, ?delete_delete_eq, ?delete_id by done.
  all: try done.
  all: try (destruct (n =? 0)%N eqn:Hn;
            [apply N.eqb_eq in Hn as ->|]); try done.
Qed.

(** ** Transcription driver *)

Section DriverFacts.
Context `{PyFloat}.
Variables (E : env) (input_path : string) (job_id : option string).

(** One iteration, outcome by outcome.  [p] is the name of the temp file.
    The file is gone after a successful iteration, after a time-out, after a
    non-zero exit and when ffmpeg left nothing; it is on disk and recorded
    in [temp_paths] after a failed upload; it is on disk and not recorded
    after an exit with status 0 that left an empty file. *)
Lemma process_chunk_run total i w s :
  process_chunk E input_path job_id total i w s
  = let js := reported job_id
                ("Processing chunk " ++ chunk_label i total ++ "...") (jobs s) in
    let p := unused_name (temp_name E i) (fs s) in
    let s1 := set_jobs js s in
    match ffmpeg E i with
    | FfTimedOut _ =>
        Some (s1, Err (chunk_error i total
                         "ffmpeg timed out while extracting audio chunk"))
    | FfExited rc err wr =>
        if (rc =? 0)%Z then
          match wr with
          | None =>
              Some (s1, Err (chunk_error i total
                               "Audio extraction produced empty file"))
          | Some n =>
              if (n =? 0)%N then
                Some (set_fs (insert p 0%N) s1,
                      Err (chunk_error i total
                             "Audio extraction produced empty file"))
              else
                match transcribe E i with
                | Transcribed text =>
                    Some (mk_dstate (fs s) js (temp_paths s ++ [p])
                            (transcript_parts s ++ [text]), Ok tt)
                | ApiRaised e =>
                    Some (mk_dstate (<[p:=n]> (fs s)) js (temp_paths s ++ [p])
                            (transcript_parts s),
                          Err (chunk_error i total (exn_str e)))
                end
          end
        else Some (s1, Err (chunk_error i total
                              ("ffmpeg audio extraction failed: " ++ err)))
    end.
Proof.
  destruct (unused_name_spec (temp_name E i) (fs s)) as [Hne Hfree].
  unfold process_chunk, report_progress, extract_and_upload.
  unfold bind at 1. unfold modify at 1. cbv beta iota.
  unfold bind at 1. unfold try_except at 1. unfold bind at 1.
  rewrite extract_audio_chunk_run.
  destruct s as [files js tp parts]. simpl in *.
  set (p := unused_name (temp_name E i) files) in *.
  destruct (ffmpeg E i) as [rc err [n|]|wr]; simpl; try done.
  all: destruct (rc =? 0)%Z; simpl; try done.
  destruct (n =? 0)%N eqn:Hn; simpl; [done|].
  cbv beta iota zeta delta
    [bind modify open_rb getsize api_transcribe raise ret remove_temp
     path_exists os_remove set_temp_paths set_transcript_parts set_fs
     fs jobs temp_paths transcript_parts].
  rewrite !lookup_insert_eq.
  destruct (transcribe E i) as [text|e]; [|done].
  rewrite lookup_insert_eq, bool_decide_eq_true_2 by eauto.
  assert (Ht : truthy (Some p) = true).
  { simpl. destruct (String.eqb_spec p ""); done. }
  rewrite Ht. simpl. by rewrite lookup_insert_eq, delete_insert_id.
Qed.
Lemma chunk_failure_None i :
  chunk_failure E i = None ->
  exists err n text,
    ffmpeg E i = FfExited 0 err (Some n) /\ (n =? 0)%N = false
    /\ transcribe E i = Transcribed text.
Proof.
  unfold chunk_failure. destruct (ffmpeg E i) as [rc err [n|]|wr]; try done.
  all: destruct (Z.eqb_spec rc 0) as [->|]; try done.
  destruct (n =? 0)%N eqn:Hn; [done|].
  destruct (transcribe E i) as [text|e] eqn:Ht; [|done]. eauto 6.
Qed.

(** The loop over chunks that all succeed: the files are as before, and each
    text has been appended in turn. *)
Lemma chunks_loop_ok total chunks i s :
  (forall k, (i <= k < i + length chunks)%nat -> chunk_failure E k = None) ->
  temps_ok (fs s) (temp_paths s) ->
  exists s',
    for_enumerate (process_chunk E input_path job_id total) i chunks s
    = Some (s', Ok tt)
    /\ fs s' = fs s
    /\ temps_ok (fs s) (temp_paths s')
    /\ transcript_parts s'
       = transcript_parts s ++ map (chunk_text E) (seq i (length chunks)).
Proof.
  revert i s. induction chunks as [|w chunks IH]; intros i s Hok Htmp.
  - exists s. simpl. by rewrite app_nil_r.
  - simpl. unfold bind at 1. rewrite process_chunk_run. cbv zeta.
    destruct (chunk_failure_None i) as (err & n & text & -> & Hn & Ht).
    { apply Hok. simpl. lia. }
    simpl. rewrite Hn, Ht.
    destruct (unused_name_spec (temp_name E i) (fs s)) as [Hne Hfree].
    set (p := unused_name (temp_name E i) (fs s)) in *.
    set (s1 := mk_dstate _ _ _ _).
    destruct (IH (S i) s1) as (s' & Hrun & Hfs & Htmp' & Hparts).
    { intros k Hk. apply Hok. simpl. lia. }
    { unfold s1, temps_ok; simpl. apply Forall_app. split; [exact Htmp|].
      by repeat constructor. }
    exists s'. split; [exact Hrun|]. split; [exact Hfs|].
    split; [exact Htmp'|]. rewrite Hparts. unfold s1; simpl.
    unfold chunk_text at 2. rewrite Ht. by rewrite <- app_assoc.
Qed.

(** The loop when chunk [k] is the first to fail: the exception names
    [k+1/total]; every file that differs from before is recorded in
    [temp_paths], unless ffmpeg left an empty file. *)
Lemma chunks_loop_fails total chunks i s k msg :
  (i <= k < i + length chunks)%nat ->
  (forall j, (i <= j < k)%nat -> chunk_failure E j = None) ->
  chunk_failure E k = Some msg ->
  temps_ok (fs s) (temp_paths s) ->
  exists s',
    for_enumerate (process_chunk E input_path job_id total) i chunks s
    = Some (s', Err (chunk_error k total msg))
    /\ temps_ok (fs s) (temp_paths s')
    /\ (~ leaves_empty_file E k ->
        forall q, q ∉ temp_paths s' -> fs s' !! q = fs s !! q).
Proof.
  revert i s. induction chunks as [|w chunks IH]; intros i s Hk Hok Hfail Htmp.
  { simpl in Hk. lia. }
  simpl. unfold bind at 1. rewrite process_chunk_run. cbv zeta.
  destruct (unused_name_spec (temp_name E i) (fs s)) as [Hne Hfree].
  set (p := unused_name (temp_name E i) (fs s)) in *.
  destruct (decide (i = k)) as [->|Hik].
  - (* the failing chunk *)
    unfold chunk_failure in Hfail. unfold leaves_empty_file.
    revert Hfail.
    destruct (ffmpeg E k) as [rc err [n|]|wr].
    all: try destruct (Z.eqb_spec rc 0) as [->|Hrc].
    all: try destruct (N.eqb_spec n 0) as [->|Hn].
    all: try destruct (transcribe E k) as [text|e].
    all: intros Hfail; try discriminate Hfail.
    all: injection Hfail as <-.
    all: eexists; split; [reflexivity|]; simpl.
    all: split;
      [first [exact Htmp
             |apply Forall_app; split; [exact Htmp|by repeat constructor]]|].
    all: first
      [by intros _ q _
      |by intros Hno; destruct Hno; eauto
      |intros _ q Hq; apply lookup_insert_ne; intros ->; apply Hq;
       apply elem_of_app; right; by apply list_elem_of_singleton].
  - (* an earlier chunk, which succeeds *)
    destruct (chunk_failure_None i) as (err & n & text & -> & Hn & Ht).
    { apply Hok. lia. }
    simpl. rewrite Hn, Ht.
    set (s1 := mk_dstate _ _ _ _).
    destruct (IH (S i) s1) as (s' & Hrun & Htmp' & Hfs); try done.
    { simpl in Hk. lia. }
    { intros j Hj. apply Hok. lia. }
    { unfold s1, temps_ok; simpl. apply Forall_app. split; [exact Htmp|].
      by repeat constructor. }
    exists s'. split; [exact Hrun|]. split; [exact Htmp'|exact Hfs].
Qed.
(** Removing one recorded temp file. *)
Lemma remove_temp_run q s :
  q <> ""%string -> remove_temp q s = Some (set_fs (delete q) s, Ok tt).
Proof.
  intros Hq. destruct s as [files js tp parts].
  cbv beta iota zeta delta
    [remove_temp bind path_exists os_remove ret set_fs fs jobs temp_paths
     transcript_parts].
  assert (Ht : truthy (Some q) = true).
  { simpl. destruct (String.eqb_spec q ""); done. }
  rewrite Ht. simpl. destruct (files !! q) eqn:Hl.
  - rewrite bool_decide_eq_true_2 by eauto. simpl. by rewrite Hl.
  - rewrite bool_decide_eq_false_2 by (intros [? ?]; done).
    simpl. by rewrite delete_id.
Qed.

(** The loop of the [finally] block removes exactly the listed files. *)
Lemma remove_temps_run l i s :
  Forall (fun q => q <> ""%string) l ->
  exists s',
    for_enumerate (fun _ => remove_temp) i l s = Some (s', Ok tt)
    /\ forall q, fs s' !! q = if bool_decide (q ∈ l) then None else fs s !! q.
Proof.
  revert i s. induction l as [|p l IH]; intros i s Hl.
  - exists s. split; [done|]. intros q.
    rewrite bool_decide_eq_false_2; [done|]. apply not_elem_of_nil.
  - apply Forall_cons in Hl as [Hp Hl]. simpl. unfold bind at 1.
    rewrite remove_temp_run by done.
    destruct (IH (S i) (set_fs (delete p) s) Hl) as (s' & -> & Hfs).
    exists s'. split; [done|]. intros q. rewrite Hfs.
    destruct s as [files js tp parts]; simpl.
    destruct (decide (q = p)) as [->|Hqp].
    + rewrite (bool_decide_eq_true_2 (p ∈ p :: l)) by apply list_elem_of_here.
      case_bool_decide; [done|apply lookup_delete_eq].
    + rewrite lookup_delete_ne by done.
      case_bool_decide as Hin.
      * rewrite bool_decide_eq_true_2; [done|]. by apply list_elem_of_further.
      * rewrite bool_decide_eq_false_2; [done|].
        intros [?|?]%elem_of_cons; done.
Qed.

(** The [finally] block restores the files when every file that differs is
    recorded. *)
Lemma remove_temp_paths_restores files s :
  temps_ok files (temp_paths s) ->
  (forall q, q ∉ temp_paths s -> fs s !! q = files !! q) ->
  exists s', remove_temp_paths s = Some (s', Ok tt) /\ fs s' = files.
Proof.
  intros Htmp Hrest. unfold remove_temp_paths, for_each, bind, get.
  destruct (remove_temps_run (temp_paths s) 0 s) as (s' & -> & Hfs).
  { eapply Forall_impl; [exact Htmp|]. by intros q [? _]. }
  exists s'. split; [done|]. apply map_eq. intros q. rewrite Hfs.
  case_bool_decide as Hin.
  - unfold temps_ok in Htmp. rewrite Forall_forall in Htmp.
    symmetry. by apply Htmp.
  - by apply Hrest.
Qed.

(** The [finally] block always ends without an exception. *)
Lemma remove_temp_paths_ends files s :
  temps_ok files (temp_paths s) ->
  exists s', remove_temp_paths s = Some (s', Ok tt).
Proof.
  intros Htmp. unfold remove_temp_paths, for_each, bind, get.
  destruct (remove_temps_run (temp_paths s) 0 s) as (s' & -> & _); [|eauto].
  eapply Forall_impl; [exact Htmp|]. by intros q [? _].
Qed.

(** When the steps before the loop succeed, the body of the [try] is the
    loop followed by the join. *)
Lemma transcribe_body_run fuel s chunks :
  ready fuel E input_path s chunks ->
  transcribe_body fuel E input_path job_id (set_temp_paths [] s)
  = bind (for_enumerate (process_chunk E input_path job_id (length chunks))
            0 chunks)
      (fun _ => bind get (fun s' =>
         ret (String.concat blank_line (transcript_parts s'))))
      (loop_start job_id s).
Proof.
  intros ([n Hin] & Hclient & Hconn & Hplan).
  destruct s as [files js tp parts]. simpl in Hin.
  assert (Hget : forall s0 : dstate, get_client E s0 = Some (s0, Ok tt)).
  { intros s0. unfold get_client.
    destruct Hclient as [->|[k ->]]; [done|].
    by destruct (client_cached E). }
  cbv beta iota zeta delta
    [transcribe_body report_progress bind modify path_exists getsize ret
     raise set_jobs set_temp_paths set_transcript_parts fs jobs temp_paths
     transcript_parts loop_start test_connection try_except plan_step get].
  rewrite Hin. rewrite bool_decide_eq_true_2 by eauto.
  cbv beta iota delta [negb].
  rewrite Hin. cbv beta iota. rewrite Hget. cbv beta iota.
  rewrite Hconn. cbv beta iota. rewrite Hplan. reflexivity.
Qed.

(** A run in which every chunk succeeds. *)
Lemma transcribe_audio_ok fuel s chunks :
  ready fuel E input_path s chunks ->
  (forall i, (i < length chunks)%nat -> chunk_failure E i = None) ->
  exists s',
    transcribe_audio fuel E input_path job_id s
    = Some (s', Ok (String.concat blank_line
                      (map (chunk_text E) (seq 0 (length chunks)))))
    /\ fs s' = fs s.
Proof.
  intros Hready Hok. unfold transcribe_audio.
  unfold bind at 1. unfold modify at 1. cbv beta iota.
  unfold try_finally. rewrite (transcribe_body_run _ _ _ Hready).
  destruct (chunks_loop_ok (length chunks) chunks 0 (loop_start job_id s))
    as (s1 & Hrun & Hfs & Htmp & Hparts).
  { intros k Hk. apply Hok. lia. }
  { by constructor. }
  unfold bind at 1. rewrite Hrun. unfold bind, get, ret. rewrite Hparts.
  simpl app.
  destruct (remove_temp_paths_restores (fs s) s1) as (s2 & -> & Hfs2).
  { exact Htmp. }
  { intros q _. by rewrite Hfs. }
  eauto.
Qed.

(** A run in which chunk [k] is the first to fail. *)
Lemma transcribe_audio_fails fuel s chunks k msg :
  ready fuel E input_path s chunks ->
  (k < length chunks)%nat ->
  (forall j, (j < k)%nat -> chunk_failure E j = None) ->
  chunk_failure E k = Some msg ->
  exists s',
    transcribe_audio fuel E input_path job_id s
    = Some (s', Err (chunk_error k (length chunks) msg))
    /\ (~ leaves_empty_file E k -> fs s' = fs s).
Proof.
  intros Hready Hk Hok Hfail. unfold transcribe_audio.
  unfold bind at 1. unfold modify at 1. cbv beta iota.
  unfold try_finally. rewrite (transcribe_body_run _ _ _ Hready).
  destruct (chunks_loop_fails (length chunks) chunks 0 (loop_start job_id s) k msg)
    as (s1 & Hrun & Htmp & Hfs); try done.
  { lia. }
  { intros j Hj. apply Hok. lia. }
  { by constructor. }
  unfold bind at 1. rewrite Hrun.
  destruct (remove_temp_paths_ends _ _ Htmp) as (s2 & Hfin).
  rewrite Hfin. exists s2. split; [reflexivity|].
  intros Hno.
  destruct (remove_temp_paths_restores (fs s) s1 Htmp (Hfs Hno))
    as (s2' & Hfin' & Hfs2).
  congruence.
Qed.
(** C9: in a run in which every chunk is extracted and uploaded with
    success, the returned transcript is the texts of the chunks, in window
    order, joined with a blank line. *)
Theorem transcript_joins_texts_in_order fuel s chunks :
  ready fuel E input_path s chunks ->
  (forall i, (i < length chunks)%nat -> chunk_failure E i = None) ->
  exists s',
    transcribe_audio fuel E input_path job_id s
    = Some (s', Ok (String.concat blank_line
                      (map (chunk_text E) (seq 0 (length chunks))))).
Proof.
  intros Hready Hok.
  destruct (transcribe_audio_ok fuel s chunks Hready Hok) as (s' & Hrun & _).
  eauto.
Qed.

Lemma string_app_assoc (a b c : string) :
  ((a ++ b) ++ c)%string = (a ++ (b ++ c))%string.
Proof.
  induction a as [|x a IH]; [done|].
  change (String x ((a ++ b) ++ c) = String x (a ++ (b ++ c)))%string.
  by rewrite IH.
Qed.

(** C6: in a run of [length chunks] chunks in which chunk [k] (from 0) is
    the first whose extraction or upload raises, the driver raises a
    [RuntimeError] whose message is [Failed to process audio chunk ], the
    decimal numeral of [k+1], a slash, the decimal numeral of the number of
    chunks, a colon and the text of the exception of the chunk; so it
    returns no transcript. *)
Theorem chunk_failure_aborts_naming_chunk fuel s chunks k msg :
  ready fuel E input_path s chunks ->
  (k < length chunks)%nat ->
  (forall j, (j < k)%nat -> chunk_failure E j = None) ->
  chunk_failure E k = Some msg ->
  exists s',
    transcribe_audio fuel E input_path job_id s
    = Some (s', Err (RuntimeError
                       ("Failed to process audio chunk "
                          ++ pretty (k + 1)%nat ++ "/"
                          ++ pretty (length chunks) ++ ": " ++ msg))).
Proof.
  intros Hready Hk Hok Hfail.
  destruct (transcribe_audio_fails fuel s chunks k msg Hready Hk Hok Hfail)
    as (s' & Hrun & _).
  exists s'. rewrite Hrun. unfold chunk_error, chunk_label.
  by rewrite !string_app_assoc.
Qed.

(** X21: every failure of a chunk other than an empty output of ffmpeg leaves
    the files on disk as they were before the call. *)
Lemma failure_restores_files_unless_empty_output fuel s chunks k msg s' r :
  ready fuel E input_path s chunks ->
  (k < length chunks)%nat ->
  (forall j, (j < k)%nat -> chunk_failure E j = None) ->
  chunk_failure E k = Some msg ->
  ~ leaves_empty_file E k ->
  transcribe_audio fuel E input_path job_id s = Some (s', r) ->
  fs s' = fs s.
Proof.
  intros Hready Hk Hok Hfail Hno Hrun.
  destruct (transcribe_audio_fails fuel s chunks k msg Hready Hk Hok Hfail)
    as (s2 & Hrun2 & Hfs).
  rewrite Hrun in Hrun2. injection Hrun2 as -> _. by apply Hfs.
Qed.
End DriverFacts.

Lemma hello_world_ready :
  @ready decimal_float 2 hello_world_env "talk.mp4" sample_start
    [(0, 600); (590, 221 # 2)].
Proof.
  split; [eexists; vm_compute; reflexivity|].
  split; [right; eexists; reflexivity|].
  split; [reflexivity|]. vm_compute. reflexivity.
Qed.

Lemma transcript_joins_texts_in_order_witness :
  @ready decimal_float 2 hello_world_env "talk.mp4" sample_start
    [(0, 600); (590, 221 # 2)]
  /\ (forall i, (i < 2)%nat -> chunk_failure hello_world_env i = None)
  /\ exists s',
       @transcribe_audio decimal_float 2 hello_world_env "talk.mp4" None
         sample_start
       = Some (s', Ok ("Hello" ++ newline ++ newline ++ "world")%string).
Proof.
  split; [exact hello_world_ready|].
  split; [intros i _; reflexivity|].
  apply (@transcript_joins_texts_in_order decimal_float hello_world_env
           "talk.mp4" None 2 sample_start [(0, 600); (590, 221 # 2)]).
  - exact hello_world_ready.
  - intros i _. reflexivity.
Defined.

Lemma upload_fails_ready :
  @ready decimal_float 3 upload_fails_env "talk.mp4" sample_start
    [(0, 600); (590, 600); (1180, 51 # 2)].
Proof.
  split; [eexists; vm_compute; reflexivity|].
  split; [right; eexists; reflexivity|].
  split; [reflexivity|]. vm_compute. reflexivity.
Qed.

Lemma chunk_failure_aborts_naming_chunk_witness :
  @ready decimal_float 3 upload_fails_env "talk.mp4" sample_start
    [(0, 600); (590, 600); (1180, 51 # 2)]
  /\ (1 < 3)%nat
  /\ (forall j, (j < 1)%nat -> chunk_failure upload_fails_env j = None)
  /\ chunk_failure upload_fails_env 1 = Some "Connection error."%string
  /\ exists s',
       @transcribe_audio decimal_float 3 upload_fails_env "talk.mp4" None
         sample_start
       = Some (s', Err (RuntimeError
                          "Failed to process audio chunk 2/3: Connection error.")).
Proof.
  assert (Hbefore :
    forall j, (j < 1)%nat -> chunk_failure upload_fails_env j = None).
  { intros [|j] Hj; [reflexivity|lia]. }
  split; [exact upload_fails_ready|].
  split; [lia|]. split; [exact Hbefore|]. split; [reflexivity|].
  apply (@chunk_failure_aborts_naming_chunk decimal_float upload_fails_env
           "talk.mp4" None 3 sample_start
           [(0, 600); (590, 600); (1180, 51 # 2)] 1 "Connection error.").
  - exact upload_fails_ready.
  - simpl. lia.
  - exact Hbefore.
  - reflexivity.
Defined.

(** C1 fails on the code: ffmpeg exits with status 0 on chunk 2 of 3 and
    leaves its output file empty.  The [RuntimeError] of the emptiness test
    has no handler in [extract_audio_chunk], the path has not reached
    [temp_paths], and so the temp file of chunk 2 is still on disk when the
    error of the driver propagates. *)
Theorem empty_output_leaves_temp_file :
  exists s',
    @transcribe_audio decimal_float 3 empty_output_env "talk.mp4" None
      sample_start
    = Some (s', Err (RuntimeError
                       ("Failed to process audio chunk 2/3: "
                          ++ "Audio extraction produced empty file")%string))
    /\ fs sample_start !! "/tmp/tmp1.mp3"%string = None
    /\ fs s' !! "/tmp/tmp1.mp3"%string = Some 0%N.
Proof.
  eexists. split; [vm_compute; reflexivity|].
  split; vm_compute; reflexivity.
Qed.

(** ** Retention sweep *)

Section SweepFacts.
Variables (dir what : string) (target : kind) (c : Q).

Lemma sweep_entries_cons e rest :
  sweep_entries dir what target c (e :: rest)
  = if stale target c e then
      match e_delete_error e with
      | Some msg => (e :: rest, [], Err (OSError msg))
      | None =>
          let '(kept, lines, r) := sweep_entries dir what target c rest in
          (kept,
           ("Cleaned up old " ++ what ++ ": " ++ dir ++ "/" ++ e_name e)%string
             :: lines, r)
      end
    else
      let '(kept, lines, r) := sweep_entries dir what target c rest in
      (e :: kept, lines, r).
Proof. reflexivity. Qed.

(** An entry that is not stale stays, however the loop ends. *)
Lemma sweep_entries_keeps es e :
  e ∈ es -> stale target c e = false ->
  e ∈ (sweep_entries dir what target c es).1.1.
Proof.
  intros Hin Hfresh. induction es as [|x es IH]; [by apply elem_of_nil in Hin|].
  rewrite sweep_entries_cons.
  destruct (sweep_entries dir what target c es) as [[kept lines] r].
  simpl in IH.
  apply elem_of_cons in Hin as [->|Hin].
  - rewrite Hfresh. simpl. apply list_elem_of_here.
  - destruct (stale target c x); [destruct (e_delete_error x)|]; simpl.
    + by apply list_elem_of_further.
    + by apply IH.
    + apply list_elem_of_further. by apply IH.
Qed.

(** When no deletion fails the loop ends normally and leaves exactly the
    entries that are not stale. *)
Lemma sweep_entries_clean es :
  deletions_succeed target c es ->
  exists lines,
    sweep_entries dir what target c es = (survivors target c es, lines, Ok tt).
Proof.
  unfold survivors. induction es as [|x es IH]; intros Hok.
  - by exists [].
  - apply Forall_cons in Hok as [Hx Hok]. destruct (IH Hok) as [lines Hrun].
    rewrite sweep_entries_cons, Hrun.
    destruct (stale target c x) eqn:Hst.
    + rewrite (Hx eq_refl). rewrite filter_cons_False by congruence. eauto.
    + rewrite filter_cons_True by done. eauto.
Qed.

(** When a deletion fails the loop ends there: the failing entry and all
    entries after it stay. *)
Lemma sweep_entries_stuck es pre e post msg :
  stuck_at target c es pre e post msg ->
  exists lines,
    sweep_entries dir what target c es
    = (survivors target c pre ++ e :: post, lines, Err (OSError msg)).
Proof.
  intros (-> & Hpre & Hst & Herr). unfold survivors.
  induction pre as [|x pre IH].
  - rewrite app_nil_l, sweep_entries_cons, Hst, Herr. by exists [].
  - apply Forall_cons in Hpre as [Hx Hpre]. destruct (IH Hpre) as [lines Hrun].
    rewrite <- app_comm_cons, sweep_entries_cons, Hrun.
    destruct (stale target c x) eqn:Hsx.
    + rewrite (Hx eq_refl). rewrite filter_cons_False by congruence. eauto.
    + rewrite filter_cons_True by done. eauto.
Qed.

Lemma listing_insert s d es lines d' :
  listing (mk_sstate (<[d:=es]> (dirs s)) lines) d'
  = if decide (d = d') then es else listing s d'.
Proof.
  unfold listing; simpl. rewrite lookup_insert. by case_decide.
Qed.

(** One directory of the sweep, in terms of listings. *)
Lemma sweep_dir_keeps s :
  exists s' r,
    sweep_dir dir what target c s = Some (s', r)
    /\ forall d e, e ∈ listing s d -> (d <> dir \/ stale target c e = false) ->
                   e ∈ listing s' d.
Proof.
  unfold sweep_dir. destruct (dirs s !! dir) as [es|] eqn:Hes; [|by eauto].
  pose proof (sweep_entries_keeps es) as Hkeep.
  destruct (sweep_entries dir what target c es) as [[kept lines] r].
  eexists _, _. split; [reflexivity|]. intros d e Hin Hor.
  rewrite listing_insert. case_decide as Hd; [|done]. subst d.
  unfold listing in Hin. rewrite Hes in Hin. simpl in Hin.
  destruct Hor as [?|Hfresh]; [done|]. by apply Hkeep.
Qed.

Lemma sweep_dir_clean s :
  deletions_succeed target c (listing s dir) ->
  exists s',
    sweep_dir dir what target c s = Some (s', Ok tt)
    /\ listing s' dir = survivors target c (listing s dir)
    /\ forall d, d <> dir -> listing s' d = listing s d.
Proof.
  intros Hok. unfold sweep_dir.
  assert (Hl : listing s dir = default [] (dirs s !! dir)) by done.
  destruct (dirs s !! dir) as [es|] eqn:Hes; simpl in Hl; rewrite Hl in *.
  - destruct (sweep_entries_clean es Hok) as [lines ->].
    eexists. split; [reflexivity|]. split.
    + by rewrite listing_insert, decide_True.
    + intros d Hd. by rewrite listing_insert, decide_False.
  - exists s. by rewrite Hl.
Qed.

Lemma sweep_dir_stuck s pre e post msg :
  stuck_at target c (listing s dir) pre e post msg ->
  exists s',
    sweep_dir dir what target c s = Some (s', Err (OSError msg))
    /\ listing s' dir = survivors target c pre ++ e :: post
    /\ forall d, d <> dir -> listing s' d = listing s d.
Proof.
  intros Hst. unfold sweep_dir.
  assert (Hl : listing s dir = default [] (dirs s !! dir)) by done.
  destruct (dirs s !! dir) as [es|] eqn:Hes; simpl in Hl; rewrite Hl in *.
  - destruct (sweep_entries_stuck es pre e post msg Hst) as [lines ->].
    eexists. split; [reflexivity|]. split.
    + by rewrite listing_insert, decide_True.
    + intros d Hd. by rewrite listing_insert, decide_False.
  - destruct Hst as (Hnil & _). by destruct pre.
Qed.
End SweepFacts.

Section CleanupFacts.
Variables (now : Q) (max_age_hours : Z).
Local Abbreviation c := (cutoff now max_age_hours).

Lemma listing_print line s d :
  forall s' r, print line s = Some (s', r) ->
               r = Ok tt /\ listing s' d = listing s d
               /\ last (printed s') = Some line.
Proof.
  intros s' r [= <- <-]. repeat split. simpl. apply last_snoc.
Qed.

Lemma stale_of_young target e :
  c <= e_mtime e -> stale target c e = false.
Proof.
  intros Hy. unfold stale. apply Qltb_false in Hy as ->.
  apply andb_false_r.
Qed.

(** The sweep ends without an exception, and an entry that is not older
    than the cutoff is in its directory afterwards. *)
Lemma cleanup_keeps_young s :
  exists s',
    cleanup_old_files now max_age_hours s = Some (s', Ok tt)
    /\ forall d e, e ∈ listing s d -> c <= e_mtime e -> e ∈ listing s' d.
Proof.
  unfold cleanup_old_files, try_except. cbv zeta.
  destruct (sweep_dir_keeps "uploads" "upload" RegularFile c s)
    as (s1 & r1 & Hrun1 & Hk1).
  unfold bind at 1. rewrite Hrun1.
  assert (H1 : forall d e, e ∈ listing s d -> c <= e_mtime e ->
                           e ∈ listing s1 d).
  { intros d e Hin Hy. apply Hk1; [done|]. right. by apply stale_of_young. }
  destruct r1 as [[]|e1]; [|by eexists].
  destruct (sweep_dir_keeps "chunks" "chunks" Directory c s1)
    as (s2 & r2 & Hrun2 & Hk2).
  unfold bind at 1. rewrite Hrun2.
  assert (H2 : forall d e, e ∈ listing s d -> c <= e_mtime e ->
                           e ∈ listing s2 d).
  { intros d e Hin Hy. apply Hk2; [by apply H1|].
    right. by apply stale_of_young. }
  destruct r2 as [[]|e2]; [|by eexists].
  destruct (sweep_dir_keeps "audio" "download" RegularFile c s2)
    as (s3 & r3 & Hrun3 & Hk3).
  unfold bind at 1. rewrite Hrun3.
  assert (H3 : forall d e, e ∈ listing s d -> c <= e_mtime e ->
                           e ∈ listing s3 d).
  { intros d e Hin Hy. apply Hk3; [by apply H2|].
    right. by apply stale_of_young. }
  destruct r3 as [[]|e3]; by eexists.
Qed.

(** When no deletion fails, each directory keeps exactly its entries that
    are not stale. *)
Lemma cleanup_clean s :
  deletions_succeed RegularFile c (listing s "uploads") ->
  deletions_succeed Directory c (listing s "chunks") ->
  deletions_succeed RegularFile c (listing s "audio") ->
  exists s',
    cleanup_old_files now max_age_hours s = Some (s', Ok tt)
    /\ listing s' "uploads" = survivors RegularFile c (listing s "uploads")
    /\ listing s' "chunks" = survivors Directory c (listing s "chunks")
    /\ listing s' "audio" = survivors RegularFile c (listing s "audio").
Proof.
  intros Hu Hc Ha.
  unfold cleanup_old_files, try_except. cbv zeta.
  destruct (sweep_dir_clean "uploads" "upload" RegularFile c s Hu)
    as (s1 & Hrun1 & Hl1 & Ho1).
  unfold bind at 1. rewrite Hrun1.
  destruct (sweep_dir_clean "chunks" "chunks" Directory c s1)
    as (s2 & Hrun2 & Hl2 & Ho2); [by rewrite Ho1|].
  unfold bind at 1. rewrite Hrun2.
  destruct (sweep_dir_clean "audio" "download" RegularFile c s2)
    as (s3 & Hrun3 & Hl3 & Ho3); [by rewrite Ho2, Ho1|].
  unfold bind at 1. rewrite Hrun3.
  eexists. split; [reflexivity|]. unfold listing at 1 3 5. simpl.
  change (default [] (dirs s3 !! ?d)) with (listing s3 d).
  rewrite Hl3, !Ho3, Hl2, !Ho2, Hl1, !Ho1 by done. done.
Qed.

(** A deletion fails in [uploads]: nothing after the failing entry is
    touched, in this directory or in the other two. *)
Lemma cleanup_stuck_uploads s pre e post msg :
  stuck_at RegularFile c (listing s "uploads") pre e post msg ->
  exists s',
    cleanup_old_files now max_age_hours s = Some (s', Ok tt)
    /\ listing s' "uploads" = survivors RegularFile c pre ++ e :: post
    /\ listing s' "chunks" = listing s "chunks"
    /\ listing s' "audio" = listing s "audio"
    /\ last (printed s') = Some ("Auto-cleanup error: " ++ msg)%string.
Proof.
  intros Hst.
  unfold cleanup_old_files, try_except. cbv zeta.
  destruct (sweep_dir_stuck "uploads" "upload" RegularFile c s _ _ _ _ Hst)
    as (s1 & Hrun1 & Hl1 & Ho1).
  unfold bind at 1. rewrite Hrun1.
  eexists. split; [reflexivity|]. unfold listing at 1 2 4. simpl.
  change (default [] (dirs s1 !! ?d)) with (listing s1 d).
  rewrite Hl1, !Ho1 by done. repeat split. apply last_snoc.
Qed.

(** A deletion fails in [chunks], after a clean loop over [uploads]. *)
Lemma cleanup_stuck_chunks s pre e post msg :
  deletions_succeed RegularFile c (listing s "uploads") ->
  stuck_at Directory c (listing s "chunks") pre e post msg ->
  exists s',
    cleanup_old_files now max_age_hours s = Some (s', Ok tt)
    /\ listing s' "uploads" = survivors RegularFile c (listing s "uploads")
    /\ listing s' "chunks" = survivors Directory c pre ++ e :: post
    /\ listing s' "audio" = listing s "audio"
    /\ last (printed s') = Some ("Auto-cleanup error: " ++ msg)%string.
Proof.
  intros Hu Hst.
  unfold cleanup_old_files, try_except. cbv zeta.
  destruct (sweep_dir_clean "uploads" "upload" RegularFile c s Hu)
    as (s1 & Hrun1 & Hl1 & Ho1).
  unfold bind at 1. rewrite Hrun1.
  destruct (sweep_dir_stuck "chunks" "chunks" Directory c s1 pre e post msg)
    as (s2 & Hrun2 & Hl2 & Ho2); [by rewrite Ho1|].
  unfold bind at 1. rewrite Hrun2.
  eexists. split; [reflexivity|]. unfold listing at 1 3 4. simpl.
  change (default [] (dirs s2 !! ?d)) with (listing s2 d).
  rewrite Hl2, !Ho2, Hl1, !Ho1 by done. repeat split. apply last_snoc.
Qed.

(** A deletion fails in [audio], after clean loops over the other two. *)
Lemma cleanup_stuck_audio s pre e post msg :
  deletions_succeed RegularFile c (listing s "uploads") ->
  deletions_succeed Directory c (listing s "chunks") ->
  stuck_at RegularFile c (listing s "audio") pre e post msg ->
  exists s',
    cleanup_old_files now max_age_hours s = Some (s', Ok tt)
    /\ listing s' "uploads" = survivors RegularFile c (listing s "uploads")
    /\ listing s' "chunks" = survivors Directory c (listing s "chunks")
    /\ listing s' "audio" = survivors RegularFile c pre ++ e :: post
    /\ last (printed s') = Some ("Auto-cleanup error: " ++ msg)%string.
Proof.
  intros Hu Hc Hst.
  unfold cleanup_old_files, try_except. cbv zeta.
  destruct (sweep_dir_clean "uploads" "upload" RegularFile c s Hu)
    as (s1 & Hrun1 & Hl1 & Ho1).
  unfold bind at 1. rewrite Hrun1.
  destruct (sweep_dir_clean "chunks" "chunks" Directory c s1)
    as (s2 & Hrun2 & Hl2 & Ho2); [by rewrite Ho1|].
  unfold bind at 1. rewrite Hrun2.
  destruct (sweep_dir_stuck "audio" "download" RegularFile c s2 pre e post msg)
    as (s3 & Hrun3 & Hl3 & Ho3); [by rewrite Ho2, Ho1|].
  unfold bind at 1. rewrite Hrun3.
  eexists. split; [reflexivity|]. unfold listing at 1 3 5. simpl.
  change (default [] (dirs s3 !! ?d)) with (listing s3 d).
  rewrite Hl3, !Ho3, Hl2, !Ho2, Hl1, !Ho1 by done. repeat split.
  apply last_snoc.
Qed.
End CleanupFacts.

Lemma elem_of_survivors target c es e :
  e ∈ survivors target c es
  <-> e ∈ es /\ ~ (e_kind e = target /\ (e_mtime e < c)%Q).
Proof.
  unfold survivors. rewrite list_elem_of_filter. unfold stale.
  assert (Hk : kind_eqb (e_kind e) target = true <-> e_kind e = target).
  { destruct (e_kind e), target; simpl; split; congruence. }
  split.
  - intros [Hst Hin]. split; [exact Hin|].
    intros [Hkind Hold]. apply Hk in Hkind. apply Qltb_true in Hold.
    rewrite Hkind, Hold in Hst. done.
  - intros [Hin Hno]. split; [|exact Hin].
    destruct (kind_eqb (e_kind e) target) eqn:Hkb; [|done].
    destruct (Qltb (e_mtime e) c) eqn:Hlt; [|done].
    exfalso. apply Hno. split; [by apply Hk|by apply Qltb_true].
Qed.

(** C7, as stated, fails: a subdirectory of [uploads] modified 25 hours ago
    is scanned by the sweep with [max_age_hours = 24], is older than the
    cutoff, and is still there afterwards. *)
Lemma old_subdirectory_of_uploads_is_kept :
  exists s',
    cleanup_old_files sample_now 24 sample_dirs = Some (s', Ok tt)
    /\ day_old_subdir ∈ listing sample_dirs "uploads"
    /\ (e_mtime day_old_subdir < cutoff sample_now 24)%Q
    /\ day_old_subdir ∈ listing s' "uploads".
Proof.
  eexists. split; [vm_compute; reflexivity|].
  split; [|split].
  - vm_compute. set_solver.
  - reflexivity.
  - vm_compute. set_solver.
Qed.

(** C7, amended: the sweep ends without an exception; an entry whose
    modification time is not before [now - max_age_hours] is never deleted,
    in any directory; and in a sweep in which no deletion fails, [uploads] and
    [audio] lose exactly their regular files, and [chunks] exactly its
    subdirectories, whose modification time is before that cutoff, entries of
    another kind staying whatever their age. *)
Theorem sweep_deletes_stale_entries_of_target_kind now max_age_hours s :
  exists s',
    cleanup_old_files now max_age_hours s = Some (s', Ok tt)
    /\ (forall d e, e ∈ listing s d ->
                    (cutoff now max_age_hours <= e_mtime e)%Q ->
                    e ∈ listing s' d)
    /\ (deletions_succeed RegularFile (cutoff now max_age_hours)
          (listing s "uploads") ->
        deletions_succeed Directory (cutoff now max_age_hours)
          (listing s "chunks") ->
        deletions_succeed RegularFile (cutoff now max_age_hours)
          (listing s "audio") ->
        listing s' "uploads"
        = survivors RegularFile (cutoff now max_age_hours) (listing s "uploads")
        /\ listing s' "chunks"
          = survivors Directory (cutoff now max_age_hours) (listing s "chunks")
        /\ listing s' "audio"
          = survivors RegularFile (cutoff now max_age_hours) (listing s "audio")).
Proof.
  destruct (cleanup_keeps_young now max_age_hours s) as (s' & Hrun & Hyoung).
  exists s'. split; [exact Hrun|]. split; [exact Hyoung|].
  intros Hu Hc Ha.
  destruct (cleanup_clean now max_age_hours s Hu Hc Ha) as (s2 & Hrun2 & Hl).
  rewrite Hrun in Hrun2. injection Hrun2 as <-. exact Hl.
Qed.

Lemma sweep_deletes_stale_entries_of_target_kind_witness :
  exists s',
    cleanup_old_files sample_now 24 sample_dirs = Some (s', Ok tt)
    /\ (day_old_file ∉ listing s' "uploads")
    /\ (hour_old_file ∈ listing s' "uploads").
Proof.
  destruct (sweep_deletes_stale_entries_of_target_kind sample_now 24 sample_dirs)
    as (s' & Hrun & Hyoung & Hclean).
  exists s'. split; [exact Hrun|].
  destruct Hclean as (Hu & _ & _).
  - vm_compute. by repeat constructor.
  - by constructor.
  - by constructor.
  - split.
    + rewrite Hu, elem_of_survivors. intros [_ Hno]. apply Hno.
      split; reflexivity.
    + apply Hyoung; [vm_compute; set_solver|]. vm_compute. discriminate.
Defined.

(** C8, as stated, fails: the deletion of the first file of [uploads] is
    refused, and the next file, modified 25 hours ago and deletable, is still
    there after the sweep; the sweep did not go on to it. *)
Lemma sweep_does_not_continue_past_failure :
  exists s',
    cleanup_old_files sample_now 24 locked_dirs = Some (s', Ok tt)
    /\ listing locked_dirs "uploads" = [locked_file; day_old_file]
    /\ stale RegularFile (cutoff sample_now 24) day_old_file = true
    /\ e_delete_error day_old_file = None
    /\ day_old_file ∈ listing s' "uploads".
Proof.
  eexists. split; [vm_compute; reflexivity|].
  repeat split. vm_compute. set_solver.
Qed.

(** C8, amended: the sweep never raises to its caller; when a deletion fails
    the sweep stops there: it prints the error, and the failing entry, the
    entries after it in its directory and the directories that come later
    (in the order uploads, chunks, audio) are left as they are. *)
Theorem sweep_never_raises_and_stops_at_first_failure now max_age_hours s :
  exists s',
    cleanup_old_files now max_age_hours s = Some (s', Ok tt)
    /\ (forall pre e post msg,
          stuck_at RegularFile (cutoff now max_age_hours)
            (listing s "uploads") pre e post msg ->
          listing s' "uploads"
          = survivors RegularFile (cutoff now max_age_hours) pre ++ e :: post
          /\ listing s' "chunks" = listing s "chunks"
          /\ listing s' "audio" = listing s "audio"
          /\ last (printed s') = Some ("Auto-cleanup error: " ++ msg)%string)
    /\ (forall pre e post msg,
          deletions_succeed RegularFile (cutoff now max_age_hours)
            (listing s "uploads") ->
          stuck_at Directory (cutoff now max_age_hours)
            (listing s "chunks") pre e post msg ->
          listing s' "chunks"
          = survivors Directory (cutoff now max_age_hours) pre ++ e :: post
          /\ listing s' "audio" = listing s "audio"
          /\ last (printed s') = Some ("Auto-cleanup error: " ++ msg)%string)
    /\ (forall pre e post msg,
          deletions_succeed RegularFile (cutoff now max_age_hours)
            (listing s "uploads") ->
          deletions_succeed Directory (cutoff now max_age_hours)
            (listing s "chunks") ->
          stuck_at RegularFile (cutoff now max_age_hours)
            (listing s "audio") pre e post msg ->
          listing s' "audio"
          = survivors RegularFile (cutoff now max_age_hours) pre ++ e :: post
          /\ last (printed s') = Some ("Auto-cleanup error: " ++ msg)%string).
Proof.
  destruct (cleanup_keeps_young now max_age_hours s) as (s' & Hrun & _).
  exists s'. split; [exact Hrun|]. split; [|split].
  - intros pre e post msg Hst.
    destruct (cleanup_stuck_uploads now max_age_hours s pre e post msg Hst)
      as (s2 & Hrun2 & Hl).
    rewrite Hrun in Hrun2. injection Hrun2 as <-. exact Hl.
  - intros pre e post msg Hu Hst.
    destruct (cleanup_stuck_chunks now max_age_hours s pre e post msg Hu Hst)
      as (s2 & Hrun2 & _ & Hl).
    rewrite Hrun in Hrun2. injection Hrun2 as <-. exact Hl.
  - intros pre e post msg Hu Hc Hst.
    destruct (cleanup_stuck_audio now max_age_hours s pre e post msg Hu Hc Hst)
      as (s2 & Hrun2 & _ & _ & Hl).
    rewrite Hrun in Hrun2. injection Hrun2 as <-. exact Hl.
Qed.

Lemma sweep_never_raises_and_stops_at_first_failure_witness :
  exists s',
    cleanup_old_files sample_now 24 locked_dirs = Some (s', Ok tt)
    /\ listing s' "uploads" = [locked_file; day_old_file]
    /\ last (printed s')
       = Some ("Auto-cleanup error: "
                 ++ "[Errno 13] Permission denied: 'uploads/locked.mp3'")%string.
Proof.
  destruct (sweep_never_raises_and_stops_at_first_failure sample_now 24
              locked_dirs) as (s' & Hrun & Hup & _).
  exists s'. split; [exact Hrun|].
  destruct (Hup [] locked_file [day_old_file]
              "[Errno 13] Permission denied: 'uploads/locked.mp3'"%string)
    as (Hl & _ & _ & Hp).
  - split; [reflexivity|]. split; [constructor|]. split; reflexivity.
  - split; [exact Hl|exact Hp].
Defined.

(** * Further properties *)

(** ** Chunk planner: shape, bounds and divergence *)

Section PlannerShape.
Local Open Scope Q_scope.

(** The loop entered at the [j]-th stride, with [n] full windows to go before
    the final one: the windows it returns, up to equality of numbers. *)
Lemma chunk_loop_closed_form (n : nat) duration max_duration start (j : nat) :
  overlap < max_duration ->
  start == inject_Z (Z.of_nat j) * stride max_duration ->
  (forall i, (j <= i < j + n)%nat ->
     inject_Z (Z.of_nat i) * stride max_duration + (max_duration + overlap)
     < duration) ->
  duration
  <= inject_Z (Z.of_nat (j + n)) * stride max_duration
     + (max_duration + overlap) ->
  start < duration ->
  exists ws,
    chunk_loop (S n) duration max_duration start [] = Some ws
    /\ windows_eq ws
         (map (fun i => (inject_Z (Z.of_nat i) * stride max_duration,
                         max_duration)) (seq j n)
          ++ [(inject_Z (Z.of_nat (j + n)) * stride max_duration,
               duration - inject_Z (Z.of_nat (j + n)) * stride max_duration
               + pad)]).
Proof.
  intros HM. revert start j.
  induction n as [|n IH]; intros start j Hstart Hfull Hlast Hlt.
  all: rewrite chunk_loop_S; cbv zeta.
  all: apply Qltb_true in Hlt as Hb; rewrite Hb; clear Hb.
  - rewrite Nat.add_0_r in Hlast.
    assert (Hfin : Qleb (duration - start) (max_duration + overlap) = true).
    { apply Qleb_true. rewrite Hstart. lra. }
    rewrite Hfin.
    assert (Hend : Qleb duration (start + (duration - start + pad)) = true).
    { apply Qleb_true. unfold pad. lra. }
    rewrite Hend. eexists. split; [reflexivity|].
    simpl. rewrite Nat.add_0_r. constructor; [|constructor].
    unfold w_start, w_len; simpl. split; [exact Hstart|]. rewrite Hstart. lra.
  - assert (Hj := Hfull j ltac:(lia)).
    assert (Hfin : Qleb (duration - start) (max_duration + overlap) = false).
    { apply Qleb_false. rewrite Hstart. lra. }
    rewrite Hfin.
    set (c := Qmin max_duration (duration - start)).
    assert (Hc : c == max_duration).
    { apply Q.min_l. rewrite Hstart. unfold overlap in *. lra. }
    assert (Hgo : Qleb duration (start + c) = false).
    { apply Qleb_false. rewrite Hc, Hstart. unfold overlap in *. lra. }
    rewrite Hgo. rewrite app_nil_l.
    destruct (IH (start + (max_duration - overlap)) (S j))
      as (ws & Hrun & Heq).
    + rewrite Hstart, Nat2Z.inj_succ, <- Z.add_1_r, inject_Z_plus.
      unfold stride. change (inject_Z 1) with 1. lra.
    + intros i Hi. apply Hfull. lia.
    + replace (S j + n)%nat with (j + S n)%nat by lia. exact Hlast.
    + rewrite Hstart. unfold stride, overlap in *. lra.
    + rewrite chunk_loop_acc, Hrun. simpl.
      eexists. split; [reflexivity|].
      replace (j + S n)%nat with (S j + n)%nat by lia.
      constructor; [|exact Heq].
      unfold w_start, w_len; simpl. split; [exact Hstart|exact Hc].
Qed.

(** X1: above 600 seconds, with a maximal chunk length above the overlap, the
    plan is [k] windows of [max_duration] seconds that start [max_duration -
    overlap] seconds apart, followed by one window that runs from the [k]-th
    stride to the end of the file plus the pad, where [k] is the least number
    of strides after which at most [max_duration + overlap] seconds remain. *)
Theorem plan_is_full_windows_then_tail (k : nat) duration max_duration :
  600 < duration -> overlap < max_duration ->
  (forall i, (i < k)%nat ->
     inject_Z (Z.of_nat i) * stride max_duration + (max_duration + overlap)
     < duration) ->
  duration
  <= inject_Z (Z.of_nat k) * stride max_duration + (max_duration + overlap) ->
  exists ws,
    (forall extra,
       plan_chunks (extra + S k) duration max_duration = Some ws)
    /\ windows_eq ws (expected_windows k duration max_duration).
Proof.
  intros Hd HM Hfull Hlast.
  destruct (chunk_loop_closed_form k duration max_duration 0 0 HM)
    as (ws & Hrun & Heq); try done.
  - intros i Hi. apply Hfull. lia.
  - lra.
  - exists ws. split; [|exact Heq].
    intros extra. unfold plan_chunks.
    apply Qleb_false in Hd as ->. by apply chunk_loop_fuel_add.
Qed.

Lemma plan_is_full_windows_then_tail_witness :
  exists ws,
    (forall extra, plan_chunks (extra + 3) 1205 600 = Some ws)
    /\ windows_eq ws (expected_windows 2 1205 600).
Proof.
  apply (plan_is_full_windows_then_tail 2 1205 600).
  - lra.
  - unfold overlap. lra.
  - intros [|[|i]] Hi; [vm_compute; reflexivity..|lia].
  - vm_compute. discriminate.
Defined.
(** The loop with [k] strides to go: the lengths of its windows are bounded
    and adjacent windows overlap by exactly [overlap]. *)
Lemma chunk_loop_shape (k : nat) duration max_duration start :
  overlap < max_duration -> start < duration ->
  duration - start
  <= inject_Z (Z.of_nat k) * (max_duration - overlap)
     + (max_duration + overlap) ->
  exists ws,
    chunk_loop (S k) duration max_duration start [] = Some ws
    /\ (exists w tl, ws = w :: tl /\ w_start w = start)
    /\ lengths_bounded max_duration ws /\ overlaps_exactly ws.
Proof.
  intros HM. revert start. induction k as [|k IH]; intros start Hs Hk.
  all: rewrite chunk_loop_S; cbv zeta.
  all: apply Qltb_true in Hs as Hlt; rewrite Hlt; clear Hlt.
  all: destruct (Qleb (duration - start) (max_duration + overlap)) eqn:Hfin.
  all: try (apply Qleb_false in Hfin).
  all: try (apply Qleb_true in Hfin).
  all: try (exfalso; change (inject_Z (Z.of_nat 0)) with 0 in Hk; lra).
  1,2: assert (Hend : Qleb duration (start + (duration - start + pad)) = true)
         by (apply Qleb_true; unfold pad; lra).
  1,2: rewrite Hend; eexists; split; [reflexivity|].
  1,2: split; [eauto|]; split; [|done].
  1,2: constructor; [|constructor]; unfold w_len; simpl; unfold pad; lra.
  set (c := Qmin max_duration (duration - start)).
  assert (Hc : c == max_duration).
  { apply Q.min_l. unfold overlap in *. lra. }
  assert (Hgo : Qleb duration (start + c) = false).
  { apply Qleb_false. unfold overlap in *. lra. }
  rewrite Hgo, app_nil_l.
  destruct (IH (start + (max_duration - overlap)))
    as (ws & Hrun & (w & tl & -> & Hw) & Hlen & Hov).
  { unfold overlap in *. lra. }
  { rewrite Nat2Z.inj_succ, <- Z.add_1_r, inject_Z_plus in Hk.
    change (inject_Z 1) with 1 in Hk. unfold overlap in *. lra. }
  rewrite chunk_loop_acc, Hrun. simpl.
  eexists. split; [reflexivity|]. split; [eauto|]. split.
  - constructor; [|exact Hlen]. unfold w_len; simpl.
    unfold pad, overlap in *. lra.
  - split; [|exact Hov]. unfold w_end, w_start, w_len in *; simpl in *.
    rewrite Hw. unfold overlap in *. lra.
Qed.

(** Above 600 seconds the planner's windows have bounded lengths and overlap
    by exactly [overlap]. *)
Lemma plan_chunks_shape duration max_duration :
  600 < duration -> overlap < max_duration ->
  exists fuel ws,
    (forall extra,
       plan_chunks (extra + fuel) duration max_duration = Some ws)
    /\ lengths_bounded max_duration ws /\ overlaps_exactly ws.
Proof.
  intros Hd HM.
  destruct (strides_exist duration max_duration 0 HM) as [k Hk]; [lra|].
  destruct (chunk_loop_shape k duration max_duration 0 HM)
    as (ws & Hrun & _ & Hprops); [lra|exact Hk|].
  exists (S k), ws. split; [|exact Hprops].
  intros extra. unfold plan_chunks.
  apply Qleb_false in Hd as ->. by apply chunk_loop_fuel_add.
Qed.

(** X2: above 600 seconds, with the default maximal chunk length, every
    planned window is longer than half a second and at most 610.5 seconds
    long: the final window may exceed the maximal chunk length by the overlap
    and the pad. *)
Theorem window_lengths_are_bounded duration :
  600 < duration ->
  exists fuel ws,
    (forall extra,
       plan_chunks (extra + fuel) duration default_max_duration = Some ws)
    /\ Forall (fun w => 1 # 2 < w_len w /\ w_len w <= 610 + (1 # 2)) ws.
Proof.
  intros Hd.
  destruct (plan_chunks_shape duration default_max_duration Hd)
    as (fuel & ws & Hrun & Hlen & _).
  { unfold overlap, default_max_duration. lra. }
  exists fuel, ws. split; [exact Hrun|].
  eapply Forall_impl; [exact Hlen|].
  intros w. unfold pad, overlap, default_max_duration. simpl. lra.
Qed.

Lemma window_lengths_are_bounded_witness :
  exists fuel ws,
    (forall extra,
       plan_chunks (extra + fuel) 1205 default_max_duration = Some ws)
    /\ Forall (fun w => 1 # 2 < w_len w /\ w_len w <= 610 + (1 # 2)) ws.
Proof. apply (window_lengths_are_bounded 1205). lra. Defined.

(** X3: above 600 seconds, with a maximal chunk length above the overlap,
    each planned window ends exactly 10 seconds (the overlap) after the next
    window starts. *)
Theorem adjacent_windows_overlap_by_ten duration max_duration :
  600 < duration -> overlap < max_duration ->
  exists fuel ws,
    (forall extra,
       plan_chunks (extra + fuel) duration max_duration = Some ws)
    /\ overlaps_exactly ws.
Proof.
  intros Hd HM.
  destruct (plan_chunks_shape duration max_duration Hd HM)
    as (fuel & ws & Hrun & _ & Hov).
  eauto.
Qed.

Lemma adjacent_windows_overlap_by_ten_witness :
  exists fuel ws,
    (forall extra, plan_chunks (extra + fuel) 1205 600 = Some ws)
    /\ overlaps_exactly ws.
Proof.
  apply (adjacent_windows_overlap_by_ten 1205 600); [lra|].
  unfold overlap. lra.
Defined.

(** With a maximal chunk length of at most the overlap the start never
    advances and the loop does not end. *)
Lemma chunk_loop_never_ends fuel duration max_duration start acc :
  max_duration <= overlap -> start <= 0 -> 2 * overlap < duration ->
  chunk_loop fuel duration max_duration start acc = None.
Proof.
  intros HM. revert start acc.
  induction fuel as [|fuel IH]; intros start acc Hs Hd; [reflexivity|].
  rewrite chunk_loop_S. cbv zeta.
  assert (Hlt : Qltb start duration = true).
  { apply Qltb_true. unfold overlap in *. lra. }
  assert (Hfin : Qleb (duration - start) (max_duration + overlap) = false).
  { apply Qleb_false. unfold overlap in *. lra. }
  rewrite Hlt, Hfin.
  pose proof (Q.le_min_l max_duration (duration - start)) as Hmin.
  assert (Hgo : Qleb duration
                  (start + Qmin max_duration (duration - start)) = false).
  { apply Qleb_false. unfold overlap in *. lra. }
  rewrite Hgo. apply IH; [|exact Hd]. unfold overlap in *. lra.
Qed.

(** X4: above 600 seconds a [max_duration] of at most 10 (the overlap) makes
    the planner loop forever: the start does not advance, and no amount of
    fuel gives a result. *)
Theorem small_max_duration_never_returns fuel duration max_duration :
  600 < duration -> max_duration <= overlap ->
  plan_chunks fuel duration max_duration = None.
Proof.
  intros Hd HM. unfold plan_chunks. apply Qleb_false in Hd as Hb. rewrite Hb.
  apply chunk_loop_never_ends; [exact HM|lra|]. unfold overlap. lra.
Qed.

Lemma small_max_duration_never_returns_witness :
  plan_chunks 1000 700 10 = None.
Proof.
  apply (small_max_duration_never_returns 1000 700 10); [lra|].
  unfold overlap. lra.
Defined.
End PlannerShape.


(** ** Extractors *)

(** X6: when [extract_audio_chunk] returns a path, that path is a proper name
    that was not in use before the call, ffmpeg exited with status 0, and the
    disk afterwards is the disk before plus that one file with the non-zero
    size that ffmpeg wrote. *)
Theorem extracted_chunk_is_a_new_nonempty_file
    video_path start_time duration candidate o s s' p :
  extract_audio_chunk video_path start_time duration candidate o s
  = Some (s', Ok p) ->
  p <> ""%string /\ fs s !! p = None
  /\ exists err n,
       o = FfExited 0 err (Some n) /\ n <> 0%N /\ fs s' = <[p:=n]> (fs s).
Proof.
  rewrite extract_audio_chunk_run. cbv zeta.
  destruct (unused_name_spec candidate (fs s)) as [Hne Hfree].
  destruct o as [rc err [n|]|w]; try done.
  all: destruct (Z.eqb_spec rc 0) as [->|Hrc]; try done.
  destruct (N.eqb_spec n 0) as [->|Hn]; [done|].
  intros [= <- <-]. repeat split; try done. by exists err, n.
Qed.

Lemma extracted_chunk_is_a_new_nonempty_file_witness :
  let o := FfExited 0 "" (Some 4096%N) in
  let p := "/tmp/tmp0.mp3"%string in
  let s' := set_fs (insert p 4096%N) sample_start in
  extract_audio_chunk "talk.mp4" 0 600 p o sample_start = Some (s', Ok p)
  /\ p <> ""%string /\ fs sample_start !! p = None
  /\ exists err n,
       o = FfExited 0 err (Some n) /\ n <> 0%N
       /\ fs s' = <[p:=n]> (fs sample_start).
Proof.
  intros o p s'.
  assert (Hrun : extract_audio_chunk "talk.mp4" 0 600 p o sample_start
                 = Some (s', Ok p)) by (vm_compute; reflexivity).
  split; [exact Hrun|].
  exact (extracted_chunk_is_a_new_nonempty_file
           "talk.mp4" 0 600 p o sample_start s' p Hrun).
Defined.

(** X7: after a time-out or a non-zero exit of ffmpeg, whatever it left at its
    output path, [extract_audio_chunk] raises and the state is the one before
    the call: the temp file is gone before the error leaves the function.
    After a time-out the error is the [RuntimeError] of the handler. *)
Theorem failed_chunk_extraction_leaves_disk_unchanged
    video_path start_time duration candidate s :
  (forall w,
     extract_audio_chunk video_path start_time duration candidate
       (FfTimedOut w) s
     = Some (s, Err (RuntimeError
                       "ffmpeg timed out while extracting audio chunk")))
  /\ (forall rc err w,
        rc <> 0%Z ->
        exists e,
          extract_audio_chunk video_path start_time duration candidate
            (FfExited rc err w) s
          = Some (s, Err e)).
Proof.
  split.
  - intros w. by rewrite extract_audio_chunk_run.
  - intros rc err w Hrc. rewrite extract_audio_chunk_run. cbv zeta.
    destruct (Z.eqb_spec rc 0); [done|]. eauto.
Qed.

Lemma failed_chunk_extraction_leaves_disk_unchanged_witness :
  exists e,
    extract_audio_chunk "talk.mp4" 0 600 "/tmp/tmp0.mp3"
      (FfExited 1 "Invalid data" (Some 17%N)) sample_start
    = Some (sample_start, Err e).
Proof.
  apply (failed_chunk_extraction_leaves_disk_unchanged
           "talk.mp4" 0 600 "/tmp/tmp0.mp3" sample_start).
  discriminate.
Defined.

(** X8: when ffmpeg exits with status 0 and leaves its output file empty,
    [extract_audio_chunk] raises and the disk afterwards holds one file more
    than before: the empty temp file, under a name that was not in use. *)
Theorem empty_chunk_extraction_keeps_temp_file
    video_path start_time duration candidate err s :
  exists s' p,
    extract_audio_chunk video_path start_time duration candidate
      (FfExited 0 err (Some 0%N)) s
    = Some (s', Err (RuntimeError "Audio extraction produced empty file"))
    /\ fs s !! p = None /\ fs s' = <[p:=0%N]> (fs s)
    /\ size (fs s') = S (size (fs s)).
Proof.
  rewrite extract_audio_chunk_run. cbv zeta.
  destruct (unused_name_spec candidate (fs s)) as [Hne Hfree].
  eexists _, _. split; [reflexivity|]. split; [exact Hfree|].
  split; [by destruct s|]. destruct s; simpl in *.
  by apply map_size_insert_None.
Qed.

(** [extract_audio_from_video], outcome by outcome. *)
Lemma extract_audio_from_video_run video_path candidate o s :
  extract_audio_from_video video_path candidate o s
  = let p := unused_name candidate (fs s) in
    match o with
    | FfTimedOut _ =>
        Some (s, Err (RuntimeError "ffmpeg timed out during audio extraction"))
    | FfExited rc err w =>
        if (rc =? 0)%Z then
          match w with
          | None =>
              Some (s, Err (RuntimeError "Audio extraction produced empty file"))
          | Some n =>
              if (n =? 0)%N
              then Some (set_fs (insert p 0%N) s,
                         Err (RuntimeError "Audio extraction produced empty file"))
              else Some (set_fs (insert p n) s, Ok p)
          end
        else Some (s, Err (RuntimeError ("ffmpeg failed: " ++ err)))
    end.
Proof.
  destruct (unused_name_spec candidate (fs s)) as [_ Hfree].
  destruct s as [files js tp parts]. simpl in *.
  set (p := unused_name candidate files) in *.
  cbv beta iota zeta delta
    [extract_audio_from_video bind try_except mkstemp run_ffmpeg
     missing_or_empty remove_if_exists path_exists getsize os_remove raise ret
     set_fs fs jobs temp_paths transcript_parts].
  fold p.
  destruct o as [rc err [n|]|[n|]].
  all: try destruct (rc =? 0)%Z.
  all: rewrite ?insert_insert_eq, ?lookup_insert_eq, ?lookup_delete_eq.
  all: rewrite ?bool_decide_eq_true_2 by eauto.
  all: rewrite ?bool_decide_eq_false_2 by (intros [? ?]; done).
  all: cbv beta iota zeta delta [negb].
  all: rewrite ?lookup_insert_eq, ?lookup_delete_eq.
  all: rewrite ?delete_insert_eq, ?delete_delete_eq, ?delete_id by done.
  all: try done.
  all: try (destruct (n =? 0)%N eqn:Hn;
            [apply N.eqb_eq in Hn as ->|]); try done.
Qed.

(** X9: [extract_audio_from_video] removes its temp file after a time-out and
    after a non-zero exit of ffmpeg, raising with the disk as it was before
    the call, and keeps the file, empty, when ffmpeg exits with status 0 and
    an empty output: the emptiness error has no handler here either. *)
Theorem whole_file_extraction_cleans_up_except_on_empty_output
    video_path candidate s :
  (forall w,
     extract_audio_from_video video_path candidate (FfTimedOut w) s
     = Some (s, Err (RuntimeError "ffmpeg timed out during audio extraction")))
  /\ (forall rc err w,
        rc <> 0%Z ->
        exists e,
          extract_audio_from_video video_path candidate (FfExited rc err w) s
          = Some (s, Err e))
  /\ (forall err,
        exists s' p,
          extract_audio_from_video video_path candidate
            (FfExited 0 err (Some 0%N)) s
          = Some (s', Err (RuntimeError "Audio extraction produced empty file"))
          /\ fs s !! p = None /\ fs s' = <[p:=0%N]> (fs s)).
Proof.
  split; [|split].
  - intros w. by rewrite extract_audio_from_video_run.
  - intros rc err w Hrc. rewrite extract_audio_from_video_run. cbv zeta.
    destruct (Z.eqb_spec rc 0); [done|]. eauto.
  - intros err. rewrite extract_audio_from_video_run. cbv zeta.
    destruct (unused_name_spec candidate (fs s)) as [Hne Hfree].
    eexists _, _. split; [reflexivity|]. split; [exact Hfree|]. by destruct s.
Qed.

Lemma whole_file_extraction_cleans_up_except_on_empty_output_witness :
  exists e,
    extract_audio_from_video "talk.mp4" "/tmp/tmp0.mp3"
      (FfExited 1 "Invalid data" None) sample_start
    = Some (sample_start, Err e).
Proof.
  destruct (whole_file_extraction_cleans_up_except_on_empty_output
              "talk.mp4" "/tmp/tmp0.mp3" sample_start) as (_ & Hexit & _).
  apply Hexit. discriminate.
Defined.

(** ** Transcription driver: the disk and the early errors *)

Section DriverMore.
Context `{PyFloat}.
Variables (E : env) (input_path : string) (job_id : option string).

(** With no recorded temp path the [finally] block does nothing. *)
Lemma finally_without_temps (body : M dstate string) s0 s1 r :
  body s0 = Some (s1, r) -> temp_paths s1 = [] ->
  try_finally body remove_temp_paths s0 = Some (s1, r).
Proof.
  intros Hbody Htmp. unfold try_finally. rewrite Hbody.
  unfold remove_temp_paths, bind, get. rewrite Htmp. done.
Qed.

Lemma client_available s0 :
  client_cached E = true \/ (exists k, load_api_key E = Ok k) ->
  get_client E s0 = Some (s0, Ok tt).
Proof.
  intros Hclient. unfold get_client.
  destruct Hclient as [->|[k ->]]; [done|]. by destruct (client_cached E).
Qed.

Ltac run_body :=
  unfold transcribe_audio;
  unfold bind at 1; unfold modify at 1; cbv beta iota;
  apply finally_without_temps; [|reflexivity];
  cbv beta iota zeta delta
    [transcribe_body report_progress bind modify path_exists getsize ret
     raise set_jobs set_temp_paths set_transcript_parts fs jobs temp_paths
     transcript_parts test_connection try_except plan_step get started].

(** X10: when the input file does not exist the driver raises
    [FileNotFoundError] naming the path, before any client, probe or ffmpeg
    is used (the outcome does not depend on the environment), and the disk is
    untouched. *)
Theorem missing_input_raises_file_not_found fuel s :
  fs s !! input_path = None ->
  transcribe_audio fuel E input_path job_id s
  = Some (started job_id s,
          Err (FileNotFoundError ("Input file not found: " ++ input_path)))
  /\ fs (started job_id s) = fs s.
Proof.
  intros Hin. split; [|by destruct s].
  destruct s as [files js tp parts]. simpl in Hin.
  run_body. rewrite Hin.
  rewrite bool_decide_eq_false_2 by (intros [? ?]; done). reflexivity.
Qed.

(** X11: when the input file exists, no client is cached and neither the
    settings nor the environment hold a non-empty API key, the driver raises
    the [EnvironmentError] of [load_api_key], unwrapped, and runs neither the
    probe nor ffmpeg; the disk is untouched. *)
Theorem missing_api_key_raises_environment_error fuel s e :
  is_Some (fs s !! input_path) ->
  client_cached E = false -> load_api_key E = Err e ->
  transcribe_audio fuel E input_path job_id s = Some (started job_id s, Err e)
  /\ fs (started job_id s) = fs s
  /\ e = EnvironmentError
           "OpenAI API key not found. Please configure in settings.".
Proof.
  intros [n Hin] Hcache Hkey. split; [|split; [by destruct s|]].
  - destruct s as [files js tp parts]. simpl in Hin.
    run_body. rewrite Hin. rewrite bool_decide_eq_true_2 by eauto.
    cbv beta iota delta [negb]. rewrite Hin. cbv beta iota.
    unfold get_client. rewrite Hcache, Hkey. reflexivity.
  - unfold load_api_key in Hkey.
    destruct (if truthy (settings_key E) then settings_key E
              else environ_key E) as [k|] eqn:Hk.
    + destruct (truthy (Some k)); congruence.
    + congruence.
Qed.

(** X12: when the connection test [client.models.list()] raises, the driver
    raises a [RuntimeError] with the text of that exception after [Failed to
    connect to OpenAI API: ], and runs neither the probe nor ffmpeg; the disk
    is untouched. *)
Theorem failed_connection_test_aborts fuel s e :
  is_Some (fs s !! input_path) ->
  client_cached E = true \/ (exists k, load_api_key E = Ok k) ->
  models_list E = Some e ->
  transcribe_audio fuel E input_path job_id s
  = Some (started job_id s,
          Err (RuntimeError
                 ("Failed to connect to OpenAI API: " ++ exn_str e)))
  /\ fs (started job_id s) = fs s.
Proof.
  intros [n Hin] Hclient Hconn. split; [|by destruct s].
  destruct s as [files js tp parts]. simpl in Hin.
  run_body. rewrite Hin. rewrite bool_decide_eq_true_2 by eauto.
  cbv beta iota delta [negb]. rewrite Hin. cbv beta iota.
  rewrite (client_available _ Hclient). cbv beta iota.
  rewrite Hconn. reflexivity.
Qed.

(** X13: when the probe fails (non-zero exit, time-out, or output that is not
    a number) the driver raises the prober's [RuntimeError] as it is, with any
    fuel, runs no ffmpeg, and leaves the disk untouched. *)
Theorem failed_probe_aborts fuel s e :
  is_Some (fs s !! input_path) ->
  client_cached E = true \/ (exists k, load_api_key E = Ok k) ->
  models_list E = None ->
  get_audio_duration input_path (probe E) = Err e ->
  transcribe_audio fuel E input_path job_id s = Some (started job_id s, Err e)
  /\ fs (started job_id s) = fs s
  /\ exists msg,
       e = RuntimeError ("Could not determine audio duration: " ++ msg).
Proof.
  intros [n Hin] Hclient Hconn Hprobe. split; [|split; [by destruct s|]].
  - destruct s as [files js tp parts]. simpl in Hin.
    run_body. rewrite Hin. rewrite bool_decide_eq_true_2 by eauto.
    cbv beta iota delta [negb]. rewrite Hin. cbv beta iota.
    rewrite (client_available _ Hclient). cbv beta iota.
    rewrite Hconn. cbv beta iota.
    unfold get_audio_chunks. rewrite Hprobe. reflexivity.
  - revert Hprobe. unfold get_audio_duration.
    destruct (probe E) as [rc out err|]; simpl.
    + destruct (rc =? 0)%Z; simpl.
      * unfold parse_duration. destruct (py_float (strip out)); [done|].
        intros [= <-]. eauto.
      * intros [= <-]. eauto.
    + intros [= <-]. eauto.
Qed.

(** X14: a run in which every chunk is extracted and uploaded with success
    leaves the disk exactly as it was before the call: every temp file it
    created is gone. *)
Theorem successful_run_leaves_disk_unchanged fuel s chunks s' r :
  ready fuel E input_path s chunks ->
  (forall i, (i < length chunks)%nat -> chunk_failure E i = None) ->
  transcribe_audio fuel E input_path job_id s = Some (s', r) ->
  fs s' = fs s.
Proof.
  intros Hready Hok Hrun.
  destruct (transcribe_audio_ok E input_path job_id fuel s chunks Hready Hok)
    as (s2 & Hrun2 & Hfs).
  rewrite Hrun in Hrun2. by injection Hrun2 as -> _.
Qed.
End DriverMore.

Lemma missing_input_raises_file_not_found_witness :
  fs sample_start !! "gone.mp4"%string = None
  /\ @transcribe_audio decimal_float 0 hello_world_env "gone.mp4" None
       sample_start
     = Some (started None sample_start,
             Err (FileNotFoundError "Input file not found: gone.mp4"))
  /\ fs (started None sample_start) = fs sample_start.
Proof.
  split; [reflexivity|].
  apply (@missing_input_raises_file_not_found decimal_float hello_world_env
           "gone.mp4" None 0 sample_start).
  reflexivity.
Defined.

Lemma sample_input_exists : is_Some (fs sample_start !! "talk.mp4"%string).
Proof. eexists. vm_compute. reflexivity. Qed.

Lemma missing_api_key_raises_environment_error_witness :
  let e := EnvironmentError
             "OpenAI API key not found. Please configure in settings." in
  load_api_key no_key_env = Err e
  /\ @transcribe_audio decimal_float 0 no_key_env "talk.mp4" None sample_start
     = Some (started None sample_start, Err e).
Proof.
  intros e. split; [reflexivity|].
  apply (@missing_api_key_raises_environment_error decimal_float no_key_env
           "talk.mp4" None 0 sample_start e);
    [exact sample_input_exists|reflexivity|reflexivity].
Defined.

Lemma failed_connection_test_aborts_witness :
  @transcribe_audio decimal_float 0 offline_env "talk.mp4" None sample_start
  = Some (started None sample_start,
          Err (RuntimeError
                 "Failed to connect to OpenAI API: Connection error.")).
Proof.
  apply (@failed_connection_test_aborts decimal_float offline_env
           "talk.mp4" None 0 sample_start (APIError "Connection error."));
    [exact sample_input_exists|by left|reflexivity].
Defined.

Lemma failed_probe_aborts_witness :
  exists e,
    @get_audio_duration decimal_float "talk.mp4" (probe no_duration_env)
    = Err e
    /\ @transcribe_audio decimal_float 0 no_duration_env "talk.mp4" None
         sample_start
       = Some (started None sample_start, Err e).
Proof.
  eexists. split; [reflexivity|].
  apply (@failed_probe_aborts decimal_float no_duration_env
           "talk.mp4" None 0 sample_start);
    [exact sample_input_exists|right; by eexists|reflexivity|reflexivity].
Defined.

Lemma successful_run_leaves_disk_unchanged_witness :
  exists s' r,
    @transcribe_audio decimal_float 2 hello_world_env "talk.mp4" None
      sample_start = Some (s', r)
    /\ fs s' = fs sample_start.
Proof.
  destruct (@transcribe_audio_ok decimal_float hello_world_env "talk.mp4"
              None 2 sample_start _ hello_world_ready) as (s' & Hrun & _).
  { intros i _. reflexivity. }
  eexists s', _. split; [exact Hrun|].
  assert (Hok : forall i, (i < 2)%nat -> chunk_failure hello_world_env i = None)
    by (intros i _; reflexivity).
  exact (@successful_run_leaves_disk_unchanged decimal_float hello_world_env
           "talk.mp4" None 2 sample_start _ s' _ hello_world_ready Hok Hrun).
Defined.

Lemma failure_restores_files_unless_empty_output_witness :
  exists s' r,
    @transcribe_audio decimal_float 3 upload_fails_env "talk.mp4" None
      sample_start = Some (s', r)
    /\ fs s' = fs sample_start.
Proof.
  assert (Hbefore :
    forall j, (j < 1)%nat -> chunk_failure upload_fails_env j = None).
  { intros [|j] Hj; [reflexivity|lia]. }
  destruct (@transcribe_audio_fails decimal_float upload_fails_env "talk.mp4"
              None 3 sample_start _ 1 "Connection error." upload_fails_ready)
    as (s' & Hrun & _); [simpl; lia|exact Hbefore|reflexivity|].
  eexists s', _. split; [exact Hrun|].
  assert (Hk : (1 < 3)%nat) by lia.
  assert (Hno : ~ leaves_empty_file upload_fails_env 1).
  { intros [err Herr]. discriminate Herr. }
  exact (@failure_restores_files_unless_empty_output decimal_float
           upload_fails_env "talk.mp4" None 3 sample_start _ 1
           "Connection error." s' _ upload_fails_ready Hk Hbefore eq_refl
           Hno Hrun).
Defined.

(** ** Progress reports *)

(** X15: [update_progress] writes the text of a job that the registry knows
    and does nothing for an unknown identifier: it never adds or removes a
    job, and the other jobs keep their texts. *)
Theorem update_progress_touches_known_job_only job_id progress
    (jobs_dict : gmap string string) :
  dom (update_progress job_id progress jobs_dict) = dom jobs_dict
  /\ update_progress job_id progress jobs_dict !! job_id
     = (fun _ => progress) <$> jobs_dict !! job_id
  /\ (forall j, j <> job_id ->
        update_progress job_id progress jobs_dict !! j = jobs_dict !! j).
Proof.
  unfold update_progress. case_bool_decide as Hknown.
  - destruct Hknown as [old Hold]. split; [|split].
    + rewrite dom_insert_L. apply elem_of_dom_2 in Hold.
      apply subseteq_union_1_L. by apply singleton_subseteq_l.
    + by rewrite lookup_insert_eq, Hold.
    + intros j Hj. by rewrite lookup_insert_ne.
  - split; [done|]. split; [|done].
    destruct (jobs_dict !! job_id) eqn:Hl; [|done].
    exfalso. apply Hknown. eauto.
Qed.

(** X16: [load_api_key] returns the key of the settings when that one is not
    empty and otherwise the key of the environment when that one is not
    empty; the key it returns is never empty; it raises [EnvironmentError]
    exactly when both are missing or empty. *)
Theorem load_api_key_prefers_settings (E : env) :
  match load_api_key E with
  | Ok k =>
      k <> ""%string
      /\ (if truthy (settings_key E) then settings_key E = Some k
          else environ_key E = Some k)
  | Err e =>
      truthy (settings_key E) = false /\ truthy (environ_key E) = false
      /\ e = EnvironmentError
               "OpenAI API key not found. Please configure in settings."
  end.
Proof.
  unfold load_api_key.
  destruct (truthy (settings_key E)) eqn:Hs.
  - destruct (settings_key E) as [k|]; [|done].
    rewrite Hs. split; [|done]. intros Hempty. subst k. done.
  - destruct (environ_key E) as [k|] eqn:He; [|done].
    destruct (truthy (Some k)) eqn:Hk; [|done].
    split; [|done]. intros Hempty. subst k. done.
Qed.

Section JobFacts.
Context `{PyFloat}.
Variables (E : env) (input_path : string) (job_id : option string).

Lemma keeps_jobs_ids {A} (m : M dstate A) : keeps_jobs m -> keeps_job_ids m.
Proof. intros Hm s s' r Hrun. by rewrite (Hm _ _ _ Hrun). Qed.

Lemma keeps_ids_bind {A B} (m : M dstate A) (k : A -> M dstate B) :
  keeps_job_ids m -> (forall a, keeps_job_ids (k a)) ->
  keeps_job_ids (bind m k).
Proof.
  intros Hm Hk s s' r. unfold bind.
  destruct (m s) as [[s1 [a|e]]|] eqn:Hrun; [| |done].
  - intros Hrun2. rewrite (Hk _ _ _ _ Hrun2). by apply (Hm _ _ _ Hrun).
  - intros [= <- <-]. by apply (Hm _ _ _ Hrun).
Qed.

Lemma keeps_ids_try_except {A} (m : M dstate A) h :
  keeps_job_ids m -> (forall e, keeps_job_ids (h e)) ->
  keeps_job_ids (try_except m h).
Proof.
  intros Hm Hh s s' r. unfold try_except.
  destruct (m s) as [[s1 [a|e]]|] eqn:Hrun; [| |done].
  - intros [= <- <-]. by apply (Hm _ _ _ Hrun).
  - intros Hrun2. rewrite (Hh _ _ _ _ Hrun2). by apply (Hm _ _ _ Hrun).
Qed.

Lemma keeps_ids_try_finally {A} (m : M dstate A) f :
  keeps_job_ids m -> keeps_job_ids f -> keeps_job_ids (try_finally m f).
Proof.
  intros Hm Hf s s' r. unfold try_finally.
  destruct (m s) as [[s1 r1]|] eqn:Hrun; [|done].
  destruct (f s1) as [[s2 [[]|e]]|] eqn:Hfin; [| |done].
  all: intros [= <- <-]; rewrite (Hf _ _ _ Hfin); by apply (Hm _ _ _ Hrun).
Qed.

Lemma keeps_ids_for_enumerate {A} (body : nat -> A -> M dstate unit) i l :
  (forall j x, keeps_job_ids (body j x)) ->
  keeps_job_ids (for_enumerate body i l).
Proof.
  intros Hbody. revert i. induction l as [|x l IH]; intros i.
  - by intros s s' r [= <- <-].
  - simpl. apply keeps_ids_bind; [apply Hbody|]. intros _. apply IH.
Qed.

Lemma job_ids_reported text js :
  job_ids (reported job_id text js) = job_ids js.
Proof.
  unfold reported. destruct js as [d|]; [|done].
  destruct job_id as [j|]; [|done].
  destruct (bool_decide (d ≠ ∅) && truthy (Some j)); [|done].
  unfold job_ids. simpl. f_equal.
  apply update_progress_touches_known_job_only.
Qed.

Lemma keeps_ids_report text : keeps_job_ids (report_progress job_id text).
Proof.
  intros s s' r [= <- <-]. destruct s; simpl. apply job_ids_reported.
Qed.

Lemma keeps_jobs_remove_temp q : keeps_jobs (remove_temp q).
Proof.
  intros s s' r. unfold remove_temp, bind, path_exists, os_remove, ret.
  destruct (truthy (Some q) && bool_decide (is_Some (fs s !! q))).
  - destruct (fs s !! q); intros [= <- <-]; by destruct s.
  - by intros [= <- <-].
Qed.

Lemma keeps_jobs_extract video_path start_time duration candidate o :
  keeps_jobs (extract_audio_chunk video_path start_time duration candidate o).
Proof.
  intros s s' r. rewrite extract_audio_chunk_run. cbv zeta.
  destruct o as [rc err [n|]|w].
  all: try destruct (rc =? 0)%Z.
  all: try destruct (n =? 0)%N.
  all: intros [= <- <-]; by destruct s.
Qed.

Lemma keeps_ids_process_chunk total i w :
  keeps_job_ids (process_chunk E input_path job_id total i w).
Proof.
  intros s s' r. rewrite process_chunk_run. cbv zeta.
  destruct (ffmpeg E i) as [rc err [n|]|wr].
  all: try destruct (rc =? 0)%Z.
  all: try destruct (n =? 0)%N.
  all: try destruct (transcribe E i).
  all: intros [= <- <-]; destruct s; simpl; apply job_ids_reported.
Qed.

Lemma keeps_ids_remove_temp_paths : keeps_job_ids remove_temp_paths.
Proof.
  unfold remove_temp_paths, for_each. apply keeps_ids_bind.
  - by intros s s' r [= <- <-].
  - intros s0. apply keeps_ids_for_enumerate. intros _ q.
    apply keeps_jobs_ids, keeps_jobs_remove_temp.
Qed.

Lemma keeps_ids_body fuel :
  keeps_job_ids (transcribe_body fuel E input_path job_id).
Proof.
  unfold transcribe_body.
  apply keeps_ids_bind; [apply keeps_ids_report|]. intros _.
  apply keeps_ids_bind; [by intros s s' r [= <- <-]|]. intros ex.
  apply keeps_ids_bind.
  { destruct (negb ex); by intros s s' r [= <- <-]. }
  intros _. apply keeps_ids_bind.
  { intros s s' r. unfold getsize.
    destruct (fs s !! input_path); by intros [= <- <-]. }
  intros _. apply keeps_ids_bind.
  { intros s s' r. unfold get_client.
    destruct (client_cached E); [by intros [= <- <-]|].
    destruct (load_api_key E); by intros [= <- <-]. }
  intros _. apply keeps_ids_bind.
  { intros s s' r. unfold test_connection, try_except.
    destruct (models_list E); by intros [= <- <-]. }
  intros _. apply keeps_ids_bind.
  { intros s s' r. unfold plan_step.
    destruct (get_audio_chunks _ _ _ _); [|done]. by intros [= <- <-]. }
  intros chunks. apply keeps_ids_bind.
  { intros s s' r [= <- <-]. by destruct s. }
  intros _. apply keeps_ids_bind.
  { apply keeps_ids_for_enumerate. intros j x. apply keeps_ids_process_chunk. }
  intros _. apply keeps_ids_bind; [by intros s s' r [= <- <-]|].
  intros s0. by intros s s' r [= <- <-].
Qed.

(** X17: whatever the environment answers and however the run ends,
    [transcribe_audio] neither adds a job to the registry nor removes one. *)
Theorem transcribe_audio_keeps_job_ids fuel s s' r :
  transcribe_audio fuel E input_path job_id s = Some (s', r) ->
  job_ids (jobs s') = job_ids (jobs s).
Proof.
  revert s s' r. change (keeps_job_ids (transcribe_audio fuel E input_path job_id)).
  unfold transcribe_audio. apply keeps_ids_bind.
  - intros s s' r [= <- <-]. by destruct s.
  - intros _. apply keeps_ids_try_finally;
      [apply keeps_ids_body|apply keeps_ids_remove_temp_paths].
Qed.
End JobFacts.

Lemma upload_fails_with_job_ready :
  @ready decimal_float 3 upload_fails_env "talk.mp4" sample_with_job
    [(0, 600); (590, 600); (1180, 51 # 2)].
Proof.
  split; [eexists; vm_compute; reflexivity|].
  split; [right; eexists; reflexivity|].
  split; [reflexivity|]. vm_compute. reflexivity.
Qed.

Lemma transcribe_audio_keeps_job_ids_witness :
  exists s' r,
    @transcribe_audio decimal_float 3 upload_fails_env "talk.mp4"
      (Some "job-1"%string) sample_with_job = Some (s', r)
    /\ job_ids (jobs sample_with_job) = Some {[ "job-1"%string ]}
    /\ job_ids (jobs s') = job_ids (jobs sample_with_job).
Proof.
  assert (Hbefore :
    forall j, (j < 1)%nat -> chunk_failure upload_fails_env j = None).
  { intros [|j] Hj; [reflexivity|lia]. }
  destruct (@transcribe_audio_fails decimal_float upload_fails_env "talk.mp4"
              (Some "job-1"%string) 3 sample_with_job _ 1 "Connection error."
              upload_fails_with_job_ready)
    as (s' & Hrun & _); [simpl; lia|exact Hbefore|reflexivity|].
  eexists s', _. split; [exact Hrun|]. split.
  - unfold job_ids, sample_with_job. simpl. by rewrite dom_singleton_L.
  - exact (@transcribe_audio_keeps_job_ids decimal_float upload_fails_env
             "talk.mp4" (Some "job-1"%string) 3 sample_with_job s' _ Hrun).
Defined.

Section FinalProgress.
Context `{PyFloat}.
Variables (E : env) (input_path : string) (j : string).

Lemma reported_known text (d : gmap string string) :
  j <> ""%string -> is_Some (d !! j) ->
  reported (Some j) text (Some d) = Some (<[j:=text]> d).
Proof.
  intros Hj [old Hold]. unfold reported, update_progress.
  assert (Hne : d ≠ ∅) by (intros ->; by rewrite lookup_empty in Hold).
  rewrite (bool_decide_eq_true_2 _ Hne).
  assert (Ht : truthy (Some j) = true).
  { simpl. by destruct (String.eqb_spec j ""). }
  rewrite Ht. simpl. by rewrite bool_decide_eq_true_2 by eauto.
Qed.

Lemma process_chunk_jobs job_id total i w s s' r :
  process_chunk E input_path job_id total i w s = Some (s', r) ->
  jobs s' = reported job_id (chunk_progress i total) (jobs s).
Proof.
  rewrite process_chunk_run. cbv zeta.
  destruct (ffmpeg E i) as [rc err [n|]|wr].
  all: try destruct (rc =? 0)%Z.
  all: try destruct (n =? 0)%N.
  all: try destruct (transcribe E i).
  all: intros [= <- <-]; by destruct s.
Qed.

(** After a loop over chunks that all succeed, the text of a known job is the
    report of the last chunk. *)
Lemma chunks_loop_known_job total chunks i s s' (d : gmap string string) :
  chunks <> [] -> j <> ""%string -> jobs s = Some d -> is_Some (d !! j) ->
  for_enumerate (process_chunk E input_path (Some j) total) i chunks s
  = Some (s', Ok tt) ->
  jobs s'
  = Some (<[j:=chunk_progress (i + length chunks - 1) total]> d).
Proof.
  intros Hne Hj. revert i s d Hne.
  induction chunks as [|w chunks IH]; intros i s d Hne Hjobs Hknown; [done|].
  cbn [for_enumerate]. unfold bind at 1.
  destruct (process_chunk E input_path (Some j) total i w s)
    as [[s1 [[]|e]]|] eqn:Hstep; [|by intros [=]..].
  apply process_chunk_jobs in Hstep.
  rewrite Hjobs, (reported_known _ _ Hj Hknown) in Hstep.
  destruct chunks as [|w2 chunks].
  - intros [= <-]. rewrite Hstep.
    replace (i + length [w] - 1)%nat with i by (simpl; lia). done.
  - intros Hrun.
    rewrite (IH (S i) s1 (<[j:=chunk_progress i total]> d)); try done.
    + rewrite insert_insert_eq.
      replace (S i + length (w2 :: chunks) - 1)%nat
        with (i + length (w :: w2 :: chunks) - 1)%nat by (simpl; lia).
      done.
    + rewrite lookup_insert_eq. eauto.
Qed.

Lemma remove_temps_jobs l i s s' r :
  for_enumerate (fun _ => remove_temp) i l s = Some (s', r) ->
  jobs s' = jobs s.
Proof.
  revert i s. induction l as [|q l IH]; intros i s; [by intros [= <- <-]|].
  simpl. unfold bind at 1.
  destruct (remove_temp q s) as [[s1 [[]|e]]|] eqn:Hstep; [| |done].
  - intros Hrun. rewrite (IH _ _ Hrun). by apply (keeps_jobs_remove_temp q s s1 (Ok tt)).
  - intros [= <- <-]. by apply (keeps_jobs_remove_temp q s s1 (Err e)).
Qed.

(** X18: after a run in which every chunk succeeds, the progress text of a
    job that the registry knew is the report of the last chunk,
    [Processing chunk N/N...], and the other jobs are as before. *)
Theorem final_progress_is_last_chunk fuel s chunks (d : gmap string string) :
  ready fuel E input_path s chunks ->
  (forall i, (i < length chunks)%nat -> chunk_failure E i = None) ->
  chunks <> [] -> j <> ""%string -> jobs s = Some d -> is_Some (d !! j) ->
  exists s',
    transcribe_audio fuel E input_path (Some j) s
    = Some (s', Ok (String.concat blank_line
                      (map (chunk_text E) (seq 0 (length chunks)))))
    /\ jobs s'
       = Some (<[j:=chunk_progress (length chunks - 1) (length chunks)]> d).
Proof.
  intros Hready Hok Hne Hj Hjobs Hknown.
  destruct (transcribe_audio_ok E input_path (Some j) fuel s chunks Hready Hok)
    as (s' & Hrun & _).
  exists s'. split; [exact Hrun|].
  revert Hrun. unfold transcribe_audio.
  unfold bind at 1. unfold modify at 1. cbv beta iota.
  unfold try_finally. rewrite (transcribe_body_run _ _ _ _ _ _ Hready).
  unfold bind at 1.
  destruct (for_enumerate _ 0 chunks (loop_start (Some j) s))
    as [[s1 [[]|e]]|] eqn:Hloop; [| |done].
  - unfold bind, get, ret.
    eapply (chunks_loop_known_job _ _ _ _ _
              (<[j:="Starting transcription..."%string]> d)) in Hloop;
      try done.
    + unfold remove_temp_paths, for_each, bind, get.
      destruct (for_enumerate _ 0 (temp_paths s1) s1)
        as [[s2 [[]|e]]|] eqn:Hfin; [| |done].
      * intros [= <- _]. rewrite (remove_temps_jobs _ _ _ _ _ Hfin), Hloop.
        by rewrite insert_insert_eq.
      * by intros [=].
    + unfold loop_start; simpl. rewrite Hjobs.
      by apply reported_known.
    + rewrite lookup_insert_eq. eauto.
  - by destruct (remove_temp_paths s1) as [[s2 [[]|e2]]|]; intros [=].
Qed.
End FinalProgress.

Lemma sample_with_job_ready :
  @ready decimal_float 2 hello_world_env "talk.mp4" sample_with_job
    [(0, 600); (590, 221 # 2)].
Proof.
  split; [eexists; vm_compute; reflexivity|].
  split; [right; eexists; reflexivity|].
  split; [reflexivity|]. vm_compute. reflexivity.
Qed.

Lemma final_progress_is_last_chunk_witness :
  exists s',
    @transcribe_audio decimal_float 2 hello_world_env "talk.mp4"
      (Some "job-1"%string) sample_with_job
    = Some (s', Ok ("Hello" ++ newline ++ newline ++ "world")%string)
    /\ jobs s'
       = Some (<["job-1"%string:="Processing chunk 2/2..."%string]>
                 {[ "job-1"%string := "queued"%string ]}).
Proof.
  apply (@final_progress_is_last_chunk decimal_float hello_world_env
           "talk.mp4" "job-1" 2 sample_with_job [(0, 600); (590, 221 # 2)]
           {[ "job-1"%string := "queued"%string ]}).
  - exact sample_with_job_ready.
  - intros i _. reflexivity.
  - discriminate.
  - discriminate.
  - reflexivity.
  - eexists. vm_compute. reflexivity.
Defined.

(** ** Retention sweep: what it leaves alone, and a second sweep *)

Section SweepMore.
Variables (now : Q) (max_age_hours : Z).
Local Abbreviation c := (cutoff now max_age_hours).

Lemma only_removes_refl s : only_removes s s.
Proof. by repeat split. Qed.

Lemma only_removes_trans s1 s2 s3 :
  only_removes s1 s2 -> only_removes s2 s3 -> only_removes s1 s3.
Proof.
  intros (Hd1 & Hl1 & Ho1) (Hd2 & Hl2 & Ho2). split; [congruence|]. split.
  - intros d. etrans; [apply Hl2|apply Hl1].
  - intros d H1 H2 H3. rewrite Ho2, Ho1; done.
Qed.

Lemma sweep_entries_sublist dir what target es :
  sublist (sweep_entries dir what target c es).1.1 es.
Proof.
  induction es as [|e es IH]; [done|].
  rewrite sweep_entries_cons.
  destruct (sweep_entries dir what target c es) as [[kept lines] r].
  simpl in IH.
  destruct (stale target c e); [destruct (e_delete_error e)|]; simpl.
  - done.
  - by apply sublist_cons.
  - by apply sublist_skip.
Qed.

Lemma sweep_dir_only_removes dir what target s s' r :
  dir = "uploads"%string \/ dir = "chunks"%string \/ dir = "audio"%string ->
  sweep_dir dir what target c s = Some (s', r) -> only_removes s s'.
Proof.
  intros Hdir. unfold sweep_dir.
  destruct (dirs s !! dir) as [es|] eqn:Hes.
  - pose proof (sweep_entries_sublist dir what target es) as Hsub.
    destruct (sweep_entries dir what target c es) as [[kept lines] r0].
    intros [= <- <-]. split; [|split].
    + simpl. rewrite dom_insert_L. apply elem_of_dom_2 in Hes.
      apply subseteq_union_1_L. by apply singleton_subseteq_l.
    + intros d. rewrite listing_insert. case_decide as Hd; [|done].
      subst d. unfold listing. by rewrite Hes.
    + intros d H1 H2 H3. simpl. apply lookup_insert_ne.
      intros <-. destruct Hdir as [?|[?|?]]; done.
  - intros [= <- <-]. apply only_removes_refl.
Qed.

Lemma print_only_removes line s s' r :
  print line s = Some (s', r) -> only_removes s s'.
Proof. intros [= <- <-]. by repeat split. Qed.

(** X19: however it ends, the sweep creates no directory and no entry and
    removes no directory of the top level: each working directory holds
    afterwards some of the entries it held before, in their order, and
    directories other than uploads, chunks and audio are untouched. *)
Theorem sweep_only_removes_entries s s' r :
  cleanup_old_files now max_age_hours s = Some (s', r) -> only_removes s s'.
Proof.
  unfold cleanup_old_files, try_except. cbv zeta. unfold bind.
  destruct (sweep_dir "uploads" "upload" RegularFile c s)
    as [[s1 r1]|] eqn:H1; [|done].
  apply sweep_dir_only_removes in H1; [|by left].
  destruct r1 as [[]|e1].
  2: { intros Hp. apply print_only_removes in Hp. by eapply only_removes_trans. }
  destruct (sweep_dir "chunks" "chunks" Directory c s1)
    as [[s2 r2]|] eqn:H2; [|done].
  apply sweep_dir_only_removes in H2; [|by right; left].
  pose proof (only_removes_trans _ _ _ H1 H2) as H12.
  destruct r2 as [[]|e2].
  2: { intros Hp. apply print_only_removes in Hp. by eapply only_removes_trans. }
  destruct (sweep_dir "audio" "download" RegularFile c s2)
    as [[s3 r3]|] eqn:H3; [|done].
  apply sweep_dir_only_removes in H3; [|by right; right].
  pose proof (only_removes_trans _ _ _ H12 H3) as H123.
  destruct r3 as [[]|e3].
  - intros [= <- <-]. eapply only_removes_trans; [exact H123|].
    by repeat split.
  - intros Hp. apply print_only_removes in Hp. by eapply only_removes_trans.
Qed.

(** A loop over what a loop left deletes nothing and ends in the same way. *)
Lemma sweep_entries_again dir what target es :
  sweep_entries dir what target c (sweep_entries dir what target c es).1.1
  = ((sweep_entries dir what target c es).1.1, [],
     (sweep_entries dir what target c es).2).
Proof.
  induction es as [|e es IH]; [done|].
  rewrite (sweep_entries_cons dir what target c e es).
  destruct (sweep_entries dir what target c es) as [[kept lines] r].
  simpl in IH.
  destruct (stale target c e) eqn:Hst; [destruct (e_delete_error e) eqn:Herr|].
  - cbn [fst snd]. by rewrite sweep_entries_cons, Hst, Herr.
  - cbn [fst snd]. exact IH.
  - cbn [fst snd]. by rewrite sweep_entries_cons, Hst, IH.
Qed.

(** A sweep of one directory, repeated on a state that holds what the first
    sweep left of that directory, changes no directory and ends as the first
    one. *)
Lemma sweep_dir_again dir what target s s1 r t :
  sweep_dir dir what target c s = Some (s1, r) ->
  dirs t !! dir = dirs s1 !! dir ->
  exists t1, sweep_dir dir what target c t = Some (t1, r) /\ dirs t1 = dirs t.
Proof.
  unfold sweep_dir.
  destruct (dirs s !! dir) as [es|] eqn:Hes.
  - pose proof (sweep_entries_again dir what target es) as Hagain.
    destruct (sweep_entries dir what target c es) as [[kept lines] r0].
    simpl in Hagain. intros [= <- <-]. simpl.
    rewrite lookup_insert_eq. intros Ht. rewrite Ht, Hagain.
    eexists. split; [reflexivity|]. simpl.
    by apply insert_id.
  - intros [= <- <-]. rewrite Hes. intros ->. eauto.
Qed.

Lemma sweep_dir_other dir what target s s1 r d :
  sweep_dir dir what target c s = Some (s1, r) -> d <> dir ->
  dirs s1 !! d = dirs s !! d.
Proof.
  unfold sweep_dir. destruct (dirs s !! dir) as [es|]; [|by intros [= <- <-]].
  destruct (sweep_entries dir what target c es) as [[kept lines] r0].
  intros [= <- <-] Hd. simpl. by apply lookup_insert_ne.
Qed.

(** A sweep repeated on the listings that a sweep left, with the same
    modification times and the same refusals, changes no listing. *)
Lemma sweep_again_same_listings s s1 r :
  cleanup_old_files now max_age_hours s = Some (s1, r) ->
  exists s2,
    cleanup_old_files now max_age_hours s1 = Some (s2, Ok tt)
    /\ dirs s2 = dirs s1.
Proof.
  unfold cleanup_old_files, try_except. cbv zeta. unfold bind.
  destruct (sweep_dir "uploads" "upload" RegularFile c s)
    as [[a1 r1]|] eqn:H1; [|done].
  destruct r1 as [[]|e1].
  2: { intros [= <- <-]. simpl.
       destruct (sweep_dir_again _ _ _ _ _ _
                   (mk_sstate (dirs a1) (printed a1 ++ ["Auto-cleanup error: " +:+ exn_str e1]))
                   H1 eq_refl) as (t1 & -> & Ht1).
       eexists. split; [reflexivity|]. exact Ht1. }
  destruct (sweep_dir "chunks" "chunks" Directory c a1)
    as [[a2 r2]|] eqn:H2; [|done].
  assert (Hu2 : dirs a2 !! "uploads" = dirs a1 !! "uploads")
    by (by eapply sweep_dir_other).
  destruct r2 as [[]|e2].
  2: { intros [= <- <-]. simpl.
       destruct (sweep_dir_again _ _ _ _ _ _
                   (mk_sstate (dirs a2) (printed a2 ++ ["Auto-cleanup error: " +:+ exn_str e2]))
                   H1 Hu2) as (t1 & -> & Ht1).
       destruct (sweep_dir_again _ _ _ _ _ _ t1 H2) as (t2 & -> & Ht2).
       { by rewrite Ht1. }
       eexists. split; [reflexivity|]. simpl. by rewrite Ht2, Ht1. }
  destruct (sweep_dir "audio" "download" RegularFile c a2)
    as [[a3 r3]|] eqn:H3; [|done].
  assert (Hu3 : dirs a3 !! "uploads" = dirs a1 !! "uploads").
  { rewrite <- Hu2. by eapply sweep_dir_other. }
  assert (Hc3 : dirs a3 !! "chunks" = dirs a2 !! "chunks")
    by (by eapply sweep_dir_other).
  assert (Hfinal : forall f, dirs f = dirs a3 ->
            exists s2,
              match
                match sweep_dir "uploads" "upload" RegularFile c f with
                | Some (s', Ok _) =>
                    match sweep_dir "chunks" "chunks" Directory c s' with
                    | Some (s'0, Ok _) =>
                        match sweep_dir "audio" "download" RegularFile c s'0 with
                        | Some (s'1, Ok _) =>
                            print ("Auto-cleanup completed: removed files older than "
                                     +:+ pretty max_age_hours +:+ " hours") s'1
                        | Some (s'1, Err e) => Some (s'1, Err e)
                        | None => None
                        end
                    | Some (s'0, Err e) => Some (s'0, Err e)
                    | None => None
                    end
                | Some (s', Err e) => Some (s', Err e)
                | None => None
                end
              with
              | Some (s', Ok a) => Some (s', Ok a)
              | Some (s', Err e) => print ("Auto-cleanup error: " +:+ exn_str e) s'
              | None => None
              end = Some (s2, Ok tt) /\ dirs s2 = dirs f).
  { intros f Hf.
    destruct (sweep_dir_again _ _ _ _ _ _ f H1) as (t1 & -> & Ht1).
    { by rewrite Hf. }
    destruct (sweep_dir_again _ _ _ _ _ _ t1 H2) as (t2 & -> & Ht2).
    { by rewrite Ht1, Hf. }
    destruct (sweep_dir_again _ _ _ _ _ _ t2 H3) as (t3 & -> & Ht3).
    { by rewrite Ht2, Ht1, Hf. }
    destruct r3 as [[]|e3]; eexists; (split; [reflexivity|]); simpl;
      by rewrite Ht3, Ht2, Ht1. }
  destruct r3 as [[]|e3]; intros [= <- <-]; by apply Hfinal.
Qed.

(** X20: after a sweep in which no deletion failed, a second sweep at the
    same instant deletes nothing: it ends without an exception and leaves
    every directory as the first sweep left it. *)
Theorem second_sweep_changes_nothing s s1 r :
  deletions_succeed RegularFile c (listing s "uploads") ->
  deletions_succeed Directory c (listing s "chunks") ->
  deletions_succeed RegularFile c (listing s "audio") ->
  cleanup_old_files now max_age_hours s = Some (s1, r) ->
  exists s2,
    cleanup_old_files now max_age_hours s1 = Some (s2, Ok tt)
    /\ dirs s2 = dirs s1
    /\ listing s2 "uploads" = survivors RegularFile c (listing s "uploads")
    /\ listing s2 "chunks" = survivors Directory c (listing s "chunks")
    /\ listing s2 "audio" = survivors RegularFile c (listing s "audio").
Proof.
  intros Hu Hc Ha Hrun.
  destruct (sweep_again_same_listings s s1 r Hrun) as (s2 & Hrun2 & Hdirs).
  exists s2. split; [exact Hrun2|]. split; [exact Hdirs|].
  destruct (cleanup_clean now max_age_hours s Hu Hc Ha)
    as (s1' & Hrun1 & Hl).
  rewrite Hrun in Hrun1. injection Hrun1 as <- _.
  unfold listing in *. by rewrite Hdirs.
Qed.
End SweepMore.

Lemma sweep_only_removes_entries_witness :
  exists s',
    cleanup_old_files sample_now 24 sample_dirs = Some (s', Ok tt)
    /\ only_removes sample_dirs s'.
Proof.
  eexists. split; [vm_compute; reflexivity|].
  eapply (sweep_only_removes_entries sample_now 24 sample_dirs).
  vm_compute. reflexivity.
Defined.

Lemma second_sweep_changes_nothing_witness :
  exists s1 s2,
    cleanup_old_files sample_now 24 sample_dirs = Some (s1, Ok tt)
    /\ cleanup_old_files sample_now 24 s1 = Some (s2, Ok tt)
    /\ dirs s2 = dirs s1
    /\ listing s2 "uploads" = [hour_old_file; day_old_subdir].
Proof.
  destruct (cleanup_keeps_young sample_now 24 sample_dirs) as (s1 & Hrun & _).
  destruct (second_sweep_changes_nothing sample_now 24 sample_dirs s1 (Ok tt))
    as (s2 & Hrun2 & Hdirs & Hup & _); [..|exact Hrun|].
  - vm_compute. by repeat constructor.
  - by constructor.
  - by constructor.
  - exists s1, s2. split; [exact Hrun|]. split; [exact Hrun2|].
    split; [exact Hdirs|]. rewrite Hup. vm_compute. reflexivity.
Defined.

(** ** The summary of the e-mail report *)

Lemma summary_loop_closed lines acc :
  (length acc < 8)%nat ->
  summary_loop lines acc
  = acc ++ take (8 - length acc) (meaningful_lines lines).
Proof.
  unfold meaningful_lines. revert acc.
  induction lines as [|line rest IH]; intros acc Hacc.
  - cbn [summary_loop map]. by rewrite filter_nil, take_nil, app_nil_r.
  - cbn [summary_loop map].
    destruct (nonempty (strip line)) eqn:Hline.
    + rewrite filter_cons_True by done.
      rewrite length_app. cbn [length].
      destruct (Nat.leb_spec 8 (length acc + 1)) as [Hfull|Hmore].
      * replace (8 - length acc)%nat with 1%nat by lia.
        cbn [take]. by rewrite take_0.
      * rewrite IH by (rewrite length_app; simpl; lia).
        rewrite length_app. cbn [length].
        replace (8 - length acc)%nat with (S (8 - (length acc + 1)))%nat by lia.
        cbn [take]. by rewrite <- app_assoc.
    + rewrite filter_cons_False by (rewrite Hline; done).
      destruct (Nat.leb_spec 8 (length acc)) as [Hfull|Hmore]; [lia|].
      by apply IH.
Qed.

(** X22: the summary of the e-mail is made of the first 8 lines that are not
    blank among the first 15 lines of the analysis, each stripped, joined by
    newlines; the pointer to the attachments is appended exactly when the
    analysis has more than 15 lines. *)
Theorem email_summary_is_first_eight_of_fifteen (analysis : string) :
  let analysis_lines := split_on "010" analysis in
  let summary_lines := take 8 (meaningful_lines (take 15 analysis_lines)) in
  email_summary analysis
  = (if (15 <? length analysis_lines)%nat
     then String.concat newline summary_lines ++ summary_footer
     else String.concat newline summary_lines)%string
  /\ (length summary_lines <= 8)%nat
  /\ Forall (fun l => l <> ""%string) summary_lines.
Proof.
  cbv zeta. unfold email_summary. rewrite summary_loop_closed by (simpl; lia).
  simpl app. split; [done|]. split.
  - rewrite length_take. lia.
  - apply Forall_take. unfold meaningful_lines.
    apply Forall_forall. intros l [Hl _]%list_elem_of_filter.
    intros ->. done.
Qed.
